(** * bmDub contact API: a model of [server.js] and of its API-capable variant

    The repository holds an Express server relaying a contact form as an
    e-mail.  [src/server.js] sends through SMTP only; the variant
    [src/unnamed/part_001] adds the Brevo HTTP API as a second backend.
    Both are embedded below, each in a module of its own, on top of a
    common model of the JavaScript values they manipulate.
    [src/unnamed/part_000] is an earlier state of [server.js], with the same
    checks and messages; it is embedded in a third module.

    Left out of the model: what the server prints on the console, the
    headers [cors] adds to a response, the failures of [express.json] on a
    malformed body, the listening port, and the [port] and [secure]
    settings of the SMTP transport. *)

From Stdlib Require Import Ascii String.
From stdpp Require Import gmap list pretty.

Set Default Proof Using "Type".
Local Open Scope N_scope.

(** ** JavaScript strings

    A string is its sequence of UTF-16 code units; [.length] is the length
    of that sequence.  The literals of the source are ASCII and are written
    with [lit]. *)

Abbreviation jsstring := (list N).

Definition lit (s : string) : jsstring := map N_of_ascii (list_ascii_of_string s).

(** ECMAScript [WhiteSpace] and [LineTerminator] code units: what
    [String.prototype.trim] strips and what [\s] matches. *)
Definition isWhiteSpace (c : N) : bool :=
  (9 <=? c) && (c <=? 13) || (c =? 32) || (c =? 160) || (c =? 5760)
  || (8192 <=? c) && (c <=? 8202) || (c =? 8232) || (c =? 8233)
  || (c =? 8239) || (c =? 8287) || (c =? 12288) || (c =? 65279).

Fixpoint trimStart (s : list N) : list N :=
  match s with
  | c :: s' => if isWhiteSpace c then trimStart s' else s
  | [] => []
  end.

Definition trimEnd (s : list N) : list N := rev (trimStart (rev s)).

Definition trim (s : list N) : list N := trimEnd (trimStart s).

(** ** Values of a parsed JSON body

    A field of a request body is absent, [null], a boolean or a string.
    Numbers (IEEE doubles), arrays and nested objects are outside the
    model. *)

Inductive value :=
| VUndefined
| VNull
| VBool (b : bool)
| VStr (s : list N).

#[global] Instance value_eq_dec : EqDecision value.
Proof. solve_decision. Defined.

(** [ToBoolean] *)
Definition truthy (v : value) : bool :=
  match v with
  | VUndefined | VNull => false
  | VBool b => b
  | VStr s => negb (length s =? 0)%nat
  end.

(** [String(v)] *)
Definition ToString (v : value) : list N :=
  match v with
  | VUndefined => lit "undefined"
  | VNull => lit "null"
  | VBool true => lit "true"
  | VBool false => lit "false"
  | VStr s => s
  end.

(** [a || b] and [a ?? b] *)
Definition js_or (a b : value) : value := if truthy a then a else b.

Definition js_nullish (a b : value) : value :=
  match a with
  | VUndefined | VNull => b
  | _ => a
  end.

(** Truthiness of a string, as tested by [if (s)] and [!s]. *)
Definition nonEmpty (s : list N) : bool := truthy (VStr s).

(** ** Regular expressions

    The fragment of the regular expressions the source uses: literals,
    character classes with [\s], greedy [+] on a class, one capturing group
    and the two anchors.  Matching backtracks as the ECMAScript matcher
    does. *)

Inductive class_item :=
| ItemChar (c : N)
| ItemSpace.

Inductive atom :=
| Lit (c : N)
| Class (negated : bool) (items : list class_item).

Inductive node :=
| One (a : atom)
| Plus (a : atom)
| GroupOpen
| GroupClose
| Bol
| Eol.

Definition item_matches (i : class_item) (c : N) : bool :=
  match i with
  | ItemChar d => c =? d
  | ItemSpace => isWhiteSpace c
  end.

Definition atom_matches (a : atom) (c : N) : bool :=
  match a with
  | Lit d => c =? d
  | Class negated items => xorb negated (existsb (fun i => item_matches i c) items)
  end.

(** State of the capturing group while a match is attempted. *)
Inductive capture :=
| Unset
| Opened (acc : list N)
| Closed (text : list N).

Definition push (c : N) (g : capture) : capture :=
  match g with
  | Opened acc => Opened (acc ++ [c])
  | _ => g
  end.

(** The group after the code units of [p] went by. *)
Definition pushes (p : jsstring) (g : capture) : capture :=
  fold_left (fun g c => push c g) p g.

(** Greedy [a+] followed by the continuation [k]: take one more code unit
    while that leads to a match, give it back otherwise. *)
Fixpoint plus_loop (a : atom) (k : list N -> capture -> option capture)
    (s : list N) (g : capture) : option capture :=
  match s with
  | c :: s' =>
      if atom_matches a c then
        match plus_loop a k s' (push c g) with
        | Some g' => Some g'
        | None => k s' (push c g)
        end
      else None
  | [] => None
  end.

(** [match_here r bol s g]: match the nodes [r] against a prefix of [s];
    [bol] tells whether [s] starts at the beginning of the input.  The
    result is the state of the group at the end of the first successful
    path. *)
Fixpoint match_here (r : list node) (bol : bool) (s : list N) (g : capture)
  : option capture :=
  match r with
  | [] => Some g
  | One a :: r' =>
      match s with
      | c :: s' => if atom_matches a c then match_here r' false s' (push c g) else None
      | [] => None
      end
  | Plus a :: r' => plus_loop a (match_here r' false) s g
  | GroupOpen :: r' => match_here r' bol s (Opened [])
  | GroupClose :: r' =>
      match_here r' bol s (match g with Opened acc => Closed acc | _ => g end)
  | Bol :: r' => if bol then match_here r' bol s g else None
  | Eol :: r' => match s with [] => match_here r' bol s g | _ => None end
  end.

(** Leftmost match: try every start position in turn. *)
Fixpoint search (r : list node) (bol : bool) (s : list N) : option capture :=
  match match_here r bol s Unset with
  | Some g => Some g
  | None => match s with
            | _ :: s' => search r false s'
            | [] => None
            end
  end.

(** [re.test(s)] *)
Definition test (r : list node) (s : list N) : bool :=
  match search r true s with Some _ => true | None => false end.

(** [re.exec(s)], reduced to the text of group 1 ([m[1]]); [None] is the
    [null] of a failed match. *)
Definition exec (r : list node) (s : list N) : option (list N) :=
  match search r true s with
  | Some (Closed t) => Some t
  | Some _ => Some []
  | None => None
  end.

Definition c_at : N := 64.
Definition c_dot : N := 46.
Definition c_lt : N := 60.
Definition c_gt : N := 62.

(** [[^\s@]] *)
Definition part_atom : atom := Class true [ItemSpace; ItemChar c_at].

(** [/^[^\s@]+@[^\s@]+\.[^\s@]+$/] *)
Definition re_email : list node :=
  [Bol; Plus part_atom; One (Lit c_at); Plus part_atom; One (Lit c_dot);
   Plus part_atom; Eol].

(** [/<([^>]+)>/] *)
Definition re_bracket : list node :=
  [One (Lit c_lt); GroupOpen; Plus (Class true [ItemChar c_gt]); GroupClose;
   One (Lit c_gt)].

(** ** Helpers shared by both files *)

(** [isEmail]: [v => /^[^\s@]+@[^\s@]+\.[^\s@]+$/.test(v || '')] *)
Definition isEmail (v : value) : bool :=
  test re_email (ToString (js_or v (VStr []))).

(** ** Errors, effects and responses *)

(** A thrown [Error] object: its [name] and its [message]. *)
Record js_error := { err_name : jsstring; err_message : jsstring }.

Definition mkError (msg : jsstring) : js_error :=
  {| err_name := lit "Error"; err_message := msg |}.

Definition mkTypeError (msg : jsstring) : js_error :=
  {| err_name := lit "TypeError"; err_message := msg |}.

(** [String(err?.message || err)]; [String] of an [Error] whose message is
    empty is its name. *)
Definition error_text (e : js_error) : jsstring :=
  if nonEmpty (err_message e) then err_message e else err_name e.

Inductive result (A : Type) :=
| Resolved (a : A)
| Rejected (e : js_error).
Arguments Resolved {A} a.
Arguments Rejected {A} e.

(** The object handed to [transporter.sendMail], also the [payload] of the
    API-capable variant. *)
Record message := {
  msg_to : jsstring;
  msg_from : jsstring;
  msg_replyTo : jsstring;
  msg_subject : jsstring;
  msg_text : jsstring
}.

(** The object [sendViaBrevoAPI] serialises as the body of its request; an
    [undefined] [replyTo] is dropped by [JSON.stringify]. *)
Record brevo_body := {
  bb_sender : jsstring;
  bb_to : list jsstring;
  bb_replyTo : option jsstring;
  bb_subject : jsstring;
  bb_textContent : jsstring
}.

Record fetch_init := {
  fi_method : jsstring;
  fi_headers : list (jsstring * jsstring);
  fi_body : brevo_body
}.

(** What [fetch] resolves to: the status, and the outcomes of [resp.text()]
    and of [resp.json()] (whose value the server never reads). *)
Record http_response := {
  resp_status : N;
  resp_text : result jsstring;
  resp_json : result unit
}.

Definition resp_ok (r : http_response) : bool :=
  (200 <=? resp_status r) && (resp_status r <=? 299).

(** The outside world of one request: how the SMTP relay and the HTTP API
    answer, what [transporter.verify()] gives, and the current time, in
    milliseconds and as [toISOString] prints it. *)
Record world := {
  smtp : message -> result unit;
  http : jsstring -> fetch_init -> result http_response;
  smtp_verify : result value;
  now_ms : N;
  now_iso : jsstring
}.

Inductive event :=
| EvSendMail (m : message)
| EvFetch (url : jsstring) (init : fetch_init)
| EvVerify.

(** Computations that call the outside world, record the calls they make
    and may throw. *)
Definition io (A : Type) : Type := world -> list event * result A.

Definition ret {A} (a : A) : io A := fun _ => ([], Resolved a).

Definition throw {A} (e : js_error) : io A := fun _ => ([], Rejected e).

Definition bind {A B} (m : io A) (f : A -> io B) : io B :=
  fun w =>
    match m w with
    | (t1, Resolved a) => let '(t2, r) := f a w in (t1 ++ t2, r)
    | (t1, Rejected e) => (t1, Rejected e)
    end.

Definition try_catch {A} (m : io A) (h : js_error -> io A) : io A :=
  fun w =>
    match m w with
    | (t1, Resolved a) => (t1, Resolved a)
    | (t1, Rejected e) => let '(t2, r) := h e w in (t1 ++ t2, r)
    end.

Notation "'let*' x ':=' m 'in' k" := (bind m (fun x => k))
  (at level 10, x name, m at level 100, k at level 200).

Definition sendMail (m : message) : io unit :=
  fun w => ([EvSendMail m], smtp w m).

Definition fetch (url : jsstring) (init : fetch_init) : io http_response :=
  fun w => ([EvFetch url init], http w url init).

Definition verify : io value :=
  fun w => ([EvVerify], smtp_verify w).

Definition await {A} (r : result A) : io A := fun _ => ([], r).

(** The body of a response: a JSON object, a plain text, a page rendered by
    Express itself, or nothing. *)
Inductive resp_body :=
| Json (fields : list (string * value))
| Text (t : jsstring)
| Page
| NoBody.

(** The [RateLimit-Limit], [RateLimit-Remaining] and [RateLimit-Reset]
    headers, the last one kept in milliseconds. *)
Record rate_info := {
  ri_limit : N;
  ri_remaining : N;
  ri_reset : N
}.

Record response := {
  status : N;
  body : resp_body;
  rate : option rate_info
}.

(** [res.status(code).json(obj)] *)
Definition json (code : N) (fields : list (string * value)) : response :=
  {| status := code; body := Json fields; rate := None |}.

(** [req.body?.key] *)
Definition field (b : option (gmap string value)) (key : string) : value :=
  match b with
  | Some o => match o !! key with Some v => v | None => VUndefined end
  | None => VUndefined
  end.

Definition nl : jsstring := [10].

(** The template literal of the mail text, before [.trim()]. *)
Definition text_template (name email subject source message : jsstring) : jsstring :=
  nl ++ lit "New contact form submission" ++ nl
  ++ nl
  ++ lit "Name: " ++ name ++ nl
  ++ lit "Email: " ++ email ++ nl
  ++ lit "Subject: " ++ subject ++ nl
  ++ lit "Source: " ++ (if nonEmpty source then source else lit "form") ++ nl
  ++ nl
  ++ lit "Message:" ++ nl
  ++ message.

(** [process.env]: the variables that are set, by name. *)
Definition getenv (env : gmap string jsstring) (k : string) : value :=
  match env !! k with Some s => VStr s | None => VUndefined end.

(** A destructuring default [{ K = d } = process.env] *)
Definition getenv_default (env : gmap string jsstring) (k : string) (d : jsstring)
  : jsstring :=
  match env !! k with Some s => s | None => d end.

Inductive boot (A : Type) :=
| Exit (code : N)
| Listening (app : A).
Arguments Exit {A} code.
Arguments Listening {A} app.

(** [nodemailer.createTransport({ host, port, auth: { user, pass } })] *)
Record transport := {
  t_host : jsstring;
  t_port : jsstring;
  t_user : jsstring;
  t_pass : jsstring
}.

(** ** CORS allow-list *)

(** [s.split(',')] *)
Fixpoint split_comma (s : jsstring) : list jsstring :=
  match s with
  | [] => [[]]
  | c :: s' =>
      if c =? 44 then [] :: split_comma s'
      else match split_comma s' with
           | h :: t => (c :: h) :: t
           | [] => [[c]]
           end
  end.

(** [.split(',').map(s => s.trim()).filter(Boolean)] *)
Definition parse_origins (s : jsstring) : list jsstring :=
  filter (fun o => nonEmpty o = true) (map trim (split_comma s)).

(** [list.includes(x)] *)
Definition includes (l : list jsstring) (x : jsstring) : bool :=
  bool_decide (x ∈ l).

(** The [origin] callback given to [cors], the same in both files:
    [if (!origin || origins.includes(origin)) cb(null, true);
     else cb(new Error('Not allowed by CORS'))].
    [origin] is the [Origin] header, [None] when the request has none. *)
Definition origin_callback (origins : list jsstring) (origin : option jsstring)
  : result bool :=
  let o := match origin with Some s => VStr s | None => VUndefined end in
  if negb (truthy o) || includes origins (ToString o) then Resolved true
  else Rejected (mkError (lit "Not allowed by CORS")).

(** The final error handler, the same in both files:
    [res.status(500).json({ error: 'Internal server error.' })]. *)
Definition error_handler (err : js_error) : response :=
  json 500 [("error"%string, VStr (lit "Internal server error."))].

(** ** Requests *)

Inductive method := GET | POST | OPTIONS | OtherMethod.

(** Where the path of a request leads; the path matching of Express is not
    modelled.  [Contact] is the path of the [/contact] route, [ContactSub]
    any other path below [/contact] (such as [/contact/foo]), which no route
    takes, [Elsewhere] a path outside [/contact] that no route takes. *)
Inductive endpoint := Root | Health | DebugVerify | Contact | ContactSub | Elsewhere.

#[global] Instance endpoint_eq_dec : EqDecision endpoint.
Proof. solve_decision. Defined.

(** The paths [app.use('/contact', ...)] applies to: the prefix and all that
    is below it. *)
Definition under_contact (e : endpoint) : bool :=
  match e with
  | Contact | ContactSub => true
  | _ => false
  end.

(** A request as the middleware chain sees it: [req_origin] is the [Origin]
    header, [req_ip] the originating address ([req.ip]) and [req_body] what
    [express.json] parsed. *)
Record request := {
  req_method : method;
  req_endpoint : endpoint;
  req_origin : option jsstring;
  req_ip : jsstring;
  req_body : option (gmap string value)
}.

(** ** Rate limiter

    [rateLimit({ windowMs: 60_000, max: 5, standardHeaders: true,
    legacyHeaders: false })], mounted with [app.use('/contact', limiter)].
    The options and the mount point are those of the source; the counting
    itself is done by the express-rate-limit package. *)

Definition windowMs : N := 60000.
Definition max_hits : N := 5.

(** Modelled from the spec: the store of the express-rate-limit package, a
    fixed window per originating address.  Each address has a hit count and
    the time at which its window ends. *)
Record window := {
  hits : N;
  resetTime : N
}.

(** Modelled from the spec: one hit by [key] at time [now].  A hit after the
    end of the window of [key], or by an address with no window, opens a
    window of [windowMs] milliseconds. *)
Definition increment (st : gmap jsstring window) (key : jsstring) (now : N) : window :=
  match st !! key with
  | Some w =>
      if now <? resetTime w then {| hits := hits w + 1; resetTime := resetTime w |}
      else {| hits := 1; resetTime := now + windowMs |}
  | None => {| hits := 1; resetTime := now + windowMs |}
  end.

Inductive verdict :=
| Pass (info : rate_info)
| TooMany (info : rate_info).

(** Modelled from the spec: the middleware counts the hit, and answers by
    itself once the count exceeds the cap; the limit, what remains of it
    and the time to the end of the window go to the response in both
    cases. *)
Definition limiter (st : gmap jsstring window) (key : jsstring) (now : N)
  : gmap jsstring window * verdict :=
  let w := increment st key now in
  let info := {| ri_limit := max_hits;
                 ri_remaining := max_hits - hits w;
                 ri_reset := resetTime w - now |} in
  (<[key := w]> st, if max_hits <? hits w then TooMany info else Pass info).

(** Modelled from the spec: the too-many-requests response, with the
    default text of the package as its body. *)
Definition too_many (info : rate_info) : response :=
  {| status := 429;
     body := Text (lit "Too many requests, please try again later.");
     rate := Some info |}.

Definition with_rate (info : rate_info) (r : response) : response :=
  {| status := status r; body := body r; rate := Some info |}.

(** ** The middleware chain

    Both files register, in this order: [cors] with the [origin] callback,
    [express.json], the limiter on the prefix [/contact] (for every method
    and every path below it), the routes, and the final error handler.
    [cors] passes the error of its callback to [next], which takes the
    request straight to the error handler; it ends an accepted [OPTIONS]
    request itself with status 204. *)
Definition chain (origins : list jsstring) (routes : request -> io response)
    (st : gmap jsstring window) (req : request) (w : world)
  : gmap jsstring window * list event * response :=
  match origin_callback origins (req_origin req) with
  | Rejected err => (st, [], error_handler err)
  | Resolved _ =>
      match req_method req with
      | OPTIONS => (st, [], {| status := 204; body := NoBody; rate := None |})
      | _ =>
          if under_contact (req_endpoint req) then
            match limiter st (req_ip req) (now_ms w) with
            | (st', TooMany info) => (st', [], too_many info)
            | (st', Pass info) =>
                match routes req w with
                | (t, Resolved r) => (st', t, with_rate info r)
                | (t, Rejected err) => (st', t, with_rate info (error_handler err))
                end
            end
          else
            match routes req w with
            | (t, Resolved r) => (st, t, r)
            | (t, Rejected err) => (st, t, error_handler err)
            end
      end
  end.

(** The answer of Express to a request no route takes. *)
Definition not_found : response :=
  {| status := 404; body := Page; rate := None |}.

(** ** [src/server.js]: SMTP only *)

Module Server.

Record app := {
  TO_EMAIL : jsstring;
  FROM_EMAIL : jsstring;
  origins : list jsstring;
  transporter : transport
}.

Definition default_origins : jsstring :=
  lit "https://cwingo.github.io,https://Cwingo.github.io,https://cwingo242.github.io,http://localhost:5173,http://localhost:5174".

(** The top level of the file up to [app.listen]: the configuration is
    read, and the process exits with status 1 unless the three SMTP
    settings are set and non-empty. *)
Definition startup (env : gmap string jsstring) : boot app :=
  let SMTP_HOST := getenv env "SMTP_HOST" in
  let SMTP_PORT := getenv_default env "SMTP_PORT" (lit "587") in
  let SMTP_USER := getenv env "SMTP_USER" in
  let SMTP_PASS := getenv env "SMTP_PASS" in
  if negb (truthy SMTP_HOST) || negb (truthy SMTP_USER) || negb (truthy SMTP_PASS)
  then Exit 1
  else Listening {|
    TO_EMAIL := getenv_default env "TO_EMAIL" (lit "cmwingo@email.sc.edu");
    FROM_EMAIL := getenv_default env "FROM_EMAIL" (lit "bmDub Contact <no-reply@bmdub.app>");
    origins := parse_origins
                 (ToString (js_or (getenv env "CORS_ORIGINS") (VStr default_origins)));
    transporter := {| t_host := ToString SMTP_HOST; t_port := SMTP_PORT;
                      t_user := ToString SMTP_USER; t_pass := ToString SMTP_PASS |}
  |}.

(** [String(s || '').toString().trim()] *)
Definition sanitize (s : value) : jsstring :=
  trim (ToString (js_or s (VStr []))).

(** The handler of [POST /contact]. *)
Definition contact (a : app) (req_body : option (gmap string value)) : io response :=
  try_catch
    (let name := sanitize (field req_body "name") in
     let email := sanitize (field req_body "email") in
     let subject := sanitize (field req_body "subject") in
     let message := sanitize (field req_body "message") in
     let source := sanitize (field req_body "source") in
     let honeypot := sanitize (field req_body "website") in
     if nonEmpty honeypot then
       ret (json 200 [("ok", VBool true); ("skip", VBool true)])
     else if negb (nonEmpty name) || (length name <? 2)%nat then
       ret (json 400 [("error", VStr (lit "Name is required and must be at least 2 characters."))])
     else if negb (isEmail (VStr email)) then
       ret (json 400 [("error", VStr (lit "Invalid email address."))])
     else if negb (nonEmpty subject) || (length subject <? 2)%nat then
       ret (json 400 [("error", VStr (lit "Subject is required and must be at least 2 characters."))])
     else if negb (nonEmpty message) || (length message <? 10)%nat then
       ret (json 400 [("error", VStr (lit "Message is required and must be at least 10 characters."))])
     else
       let text := trim (text_template name email subject source message) in
       let* _ := sendMail {|
                   msg_to := TO_EMAIL a;
                   msg_from := FROM_EMAIL a;
                   msg_replyTo := name ++ lit " <" ++ email ++ lit ">";
                   msg_subject := lit "[bmDub Contact] " ++ subject;
                   msg_text := text |} in
       ret (json 200 [("ok", VBool true); ("message", VStr (lit "Email sent successfully."))]))
    (fun err => ret (json 500 [("error", VStr (error_text err))])).

(** [GET /], [GET /health] and [GET /debug/verify] *)
Definition root : io response :=
  fun w => ret (json 200 [("ok", VBool true); ("service", VStr (lit "bmDub API"));
                          ("time", VStr (now_iso w))]) w.

Definition health : io response := ret (json 200 [("ok", VBool true)]).

Definition debug_verify : io response :=
  try_catch
    (let* _ := verify in
     ret (json 200 [("ok", VBool true); ("message", VStr (lit "SMTP ready"))]))
    (fun e => ret (json 500 [("ok", VBool false); ("error", VStr (error_text e))])).

Definition routes (a : app) (req : request) : io response :=
  match req_method req, req_endpoint req with
  | GET, Root => root
  | GET, Health => health
  | GET, DebugVerify => debug_verify
  | POST, Contact => contact a (req_body req)
  | _, _ => ret not_found
  end.

(** One request through the whole application. *)
Definition serve (a : app) := chain (origins a) (routes a).

End Server.

(** ** [src/unnamed/part_001]: the Brevo HTTP API, with SMTP as fallback *)

Module Brevo.

Record app := {
  BREVO_API_KEY : value;
  TO_EMAIL : jsstring;
  FROM_EMAIL : jsstring;
  allowList : list jsstring;
  transporter : option transport
}.

Definition default_origins : jsstring :=
  lit "https://cwingo.github.io,https://Cwingo.github.io,https://cwingo242.github.io,http://localhost:5173".

(** The top level of the file up to [app.listen]: [transporter] stays
    [null] when an API key is configured; without a key the three SMTP
    settings are required, and the process exits with status 1 when one
    of them is missing. *)
Definition startup (env : gmap string jsstring) : boot app :=
  let BREVO_API_KEY := getenv env "BREVO_API_KEY" in
  let SMTP_HOST := getenv env "SMTP_HOST" in
  let SMTP_PORT := getenv_default env "SMTP_PORT" (lit "587") in
  let SMTP_USER := getenv env "SMTP_USER" in
  let SMTP_PASS := getenv env "SMTP_PASS" in
  let TO_EMAIL := getenv_default env "TO_EMAIL" (lit "cmwingo@email.sc.edu") in
  let FROM_EMAIL := getenv_default env "FROM_EMAIL" (lit "bmDub Contact <cwingo64@gmail.com>") in
  let allowList := parse_origins (getenv_default env "CORS_ORIGINS" default_origins) in
  if negb (truthy BREVO_API_KEY) then
    if negb (truthy SMTP_HOST) || negb (truthy SMTP_USER) || negb (truthy SMTP_PASS)
    then Exit 1
    else Listening {|
      BREVO_API_KEY := BREVO_API_KEY; TO_EMAIL := TO_EMAIL; FROM_EMAIL := FROM_EMAIL;
      allowList := allowList;
      transporter := Some {| t_host := ToString SMTP_HOST; t_port := SMTP_PORT;
                             t_user := ToString SMTP_USER; t_pass := ToString SMTP_PASS |}
    |}
  else Listening {|
    BREVO_API_KEY := BREVO_API_KEY; TO_EMAIL := TO_EMAIL; FROM_EMAIL := FROM_EMAIL;
    allowList := allowList;
    transporter := None
  |}.

(** [String(s ?? '').trim()] *)
Definition sanitize (s : value) : jsstring :=
  trim (ToString (js_nullish s (VStr []))).

(** [val => { const m = /<([^>]+)>/.exec(val || ''); return (m && m[1]) || val; }] *)
Definition extractEmail (val : jsstring) : jsstring :=
  match exec re_bracket val with
  | Some m1 => if nonEmpty m1 then m1 else val
  | None => val
  end.

Definition brevo_url : jsstring := lit "https://api.brevo.com/v3/smtp/email".

(** The second argument of the [fetch] call of [sendViaBrevoAPI]. *)
Definition brevo_request (key : value) (p : message) : fetch_init :=
  {| fi_method := lit "POST";
     fi_headers := [(lit "api-key", ToString key);
                    (lit "accept", lit "application/json");
                    (lit "content-type", lit "application/json")];
     fi_body := {|
       bb_sender := extractEmail (msg_from p);
       bb_to := [extractEmail (msg_to p)];
       bb_replyTo := if nonEmpty (msg_replyTo p)
                     then Some (extractEmail (msg_replyTo p)) else None;
       bb_subject := msg_subject p;
       bb_textContent := msg_text p |} |}.

(** [sendViaBrevoAPI({ from, to, subject, text, replyTo })] *)
Definition sendViaBrevoAPI (key : value) (p : message) : io unit :=
  let* resp := fetch brevo_url (brevo_request key p) in
  if negb (resp_ok resp) then
    let body := match resp_text resp with Resolved t => t | Rejected _ => [] end in
    throw (mkError (lit "Brevo API " ++ lit (pretty (resp_status resp)) ++ lit ": " ++ body))
  else await (resp_json resp).

(** The handler of [POST /contact]. *)
Definition contact (a : app) (req_body : option (gmap string value)) : io response :=
  try_catch
    (let name := sanitize (field req_body "name") in
     let email := sanitize (field req_body "email") in
     let subject := sanitize (field req_body "subject") in
     let message := sanitize (field req_body "message") in
     let source := sanitize (field req_body "source") in
     let honeypot := sanitize (field req_body "website") in
     if nonEmpty honeypot then
       ret (json 200 [("ok", VBool true); ("skip", VBool true)])
     else if negb (nonEmpty name) || (length name <? 2)%nat then
       ret (json 400 [("error", VStr (lit "Name is required (min 2 chars)."))])
     else if negb (isEmail (VStr email)) then
       ret (json 400 [("error", VStr (lit "Invalid email address."))])
     else if negb (nonEmpty subject) || (length subject <? 2)%nat then
       ret (json 400 [("error", VStr (lit "Subject is required (min 2 chars)."))])
     else if negb (nonEmpty message) || (length message <? 10)%nat then
       ret (json 400 [("error", VStr (lit "Message is required (min 10 chars)."))])
     else
       let text := trim (text_template name email subject source message ++ nl) in
       let payload := {|
         msg_from := FROM_EMAIL a;
         msg_to := TO_EMAIL a;
         msg_subject := lit "[bmDub Contact] " ++ subject;
         msg_text := text;
         msg_replyTo := name ++ lit " <" ++ email ++ lit ">" |} in
       let* _ :=
         if truthy (BREVO_API_KEY a) then sendViaBrevoAPI (BREVO_API_KEY a) payload
         else match transporter a with
              | Some _ =>
                  sendMail {|
                    msg_to := msg_to payload;
                    msg_from := msg_from payload;
                    msg_replyTo := msg_replyTo payload;
                    msg_subject := msg_subject payload;
                    msg_text := msg_text payload |}
              | None =>
                  throw (mkTypeError (lit "Cannot read properties of null (reading 'sendMail')"))
              end in
       ret (json 200 [("ok", VBool true); ("message", VStr (lit "Email sent successfully."))]))
    (fun err =>
       ret (json 500 [("error", VStr (lit "Failed to send email. Please try again later."))])).

(** [GET /], [GET /health] and [GET /debug/verify]; the 12 s timeout that
    races [transporter.verify()] is one of the ways [verify] rejects. *)
Definition root : io response :=
  fun w => ret (json 200 [("ok", VBool true); ("service", VStr (lit "bmDub API"));
                          ("time", VStr (now_iso w))]) w.

Definition health : io response := ret (json 200 [("ok", VBool true)]).

Definition debug_verify (a : app) : io response :=
  try_catch
    (if truthy (BREVO_API_KEY a) then
       ret (json 200 [("ok", VBool true); ("backend", VStr (lit "brevo-api"))])
     else
       let* result := (match transporter a with
                       | Some _ => verify
                       | None => throw (mkTypeError (lit "Cannot read properties of null (reading 'verify')"))
                       end) in
       ret (json 200 [("ok", VBool true); ("backend", VStr (lit "smtp")); ("result", result)]))
    (fun e => ret (json 500 [("ok", VBool false); ("error", VStr (error_text e))])).

Definition routes (a : app) (req : request) : io response :=
  match req_method req, req_endpoint req with
  | GET, Root => root
  | GET, Health => health
  | GET, DebugVerify => debug_verify a
  | POST, Contact => contact a (req_body req)
  | _, _ => ret not_found
  end.

(** One request through the whole application; the later
    [app.options('*', cors())] is never reached, the first [cors] having
    ended every [OPTIONS] request it accepts. *)
Definition serve (a : app) := chain (allowList a) (routes a).

End Brevo.

(** ** The contract, in the words of the specification *)

(** The submission of the data model: the six fields once sanitized. *)
Record submission := {
  sub_name : jsstring;
  sub_email : jsstring;
  sub_subject : jsstring;
  sub_message : jsstring;
  sub_source : jsstring;
  sub_honeypot : jsstring
}.

Definition read (sanitize : value -> jsstring) (b : option (gmap string value))
  : submission :=
  {| sub_name := sanitize (field b "name");
     sub_email := sanitize (field b "email");
     sub_subject := sanitize (field b "subject");
     sub_message := sanitize (field b "message");
     sub_source := sanitize (field b "source");
     sub_honeypot := sanitize (field b "website") |}.

(** The four validation rules, in their order. *)
Inductive rule := RName | REmail | RSubject | RMessage.

Definition rules : list rule := [RName; REmail; RSubject; RMessage].

Definition rule_fails (s : submission) (r : rule) : bool :=
  match r with
  | RName => (length (sub_name s) <? 2)%nat
  | REmail => negb (isEmail (VStr (sub_email s)))
  | RSubject => (length (sub_subject s) <? 2)%nat
  | RMessage => (length (sub_message s) <? 10)%nat
  end.

Definition rank (r : rule) : nat :=
  match r with RName => 0 | REmail => 1 | RSubject => 2 | RMessage => 3 end.

(** First failure wins. *)
Definition first_failure (s : submission) : option rule :=
  find (rule_fails s) rules.

(** The messages of the specification, which are those of [server.js]. *)
Definition long_message (r : rule) : jsstring :=
  match r with
  | RName => lit "Name is required and must be at least 2 characters."
  | REmail => lit "Invalid email address."
  | RSubject => lit "Subject is required and must be at least 2 characters."
  | RMessage => lit "Message is required and must be at least 10 characters."
  end.

(** The messages of the API-capable variant. *)
Definition short_message (r : rule) : jsstring :=
  match r with
  | RName => lit "Name is required (min 2 chars)."
  | REmail => lit "Invalid email address."
  | RSubject => lit "Subject is required (min 2 chars)."
  | RMessage => lit "Message is required (min 10 chars)."
  end.

Definition validation_error (msg : jsstring) : response :=
  json 400 [("error", VStr msg)].

Definition skipped : response :=
  json 200 [("ok", VBool true); ("skip", VBool true)].

Definition sent : response :=
  json 200 [("ok", VBool true); ("message", VStr (lit "Email sent successfully."))].

(** The outgoing message of the data model, derived from a submission. *)
Definition outgoing (from to : jsstring) (s : submission) : message :=
  {| msg_to := to;
     msg_from := from;
     msg_replyTo := sub_name s ++ lit " <" ++ sub_email s ++ lit ">";
     msg_subject := lit "[bmDub Contact] " ++ sub_subject s;
     msg_text := trim (text_template (sub_name s) (sub_email s) (sub_subject s)
                         (sub_source s) (sub_message s)) |}.

(** The basic address pattern: [local@domain.tld] with its three parts
    non-empty, a single [@], no whitespace. *)
Definition basic_address (s : jsstring) : Prop :=
  (forall c, c ∈ s -> isWhiteSpace c = false) /\
  exists local domain tld : jsstring,
    s = local ++ [c_at] ++ domain ++ [c_dot] ++ tld /\
    local ≠ [] /\ domain ≠ [] /\ tld ≠ [] /\
    (c_at ∉ local) /\ (c_at ∉ domain) /\ (c_at ∉ tld).

(** An address field in display form: [Display Name <addr>], the name free
    of [<], the address non-empty and free of [>]. *)
Definition display_form (display addr : jsstring) : jsstring :=
  display ++ lit " <" ++ addr ++ lit ">".


Module BrevoContract.

(** The one call by which the handler hands a message to the backend in
    use. *)
Definition dispatch (a : Brevo.app) (p : message) : event :=
  if truthy (Brevo.BREVO_API_KEY a)
  then EvFetch Brevo.brevo_url (Brevo.brevo_request (Brevo.BREVO_API_KEY a) p)
  else EvSendMail p.

(** Whether the backend in use reports the delivery of [p]: the SMTP
    relay accepts it, or the API answers with a 2xx status and a JSON
    body. *)
Definition delivered (a : Brevo.app) (p : message) (w : world) : bool :=
  if truthy (Brevo.BREVO_API_KEY a) then
    match http w Brevo.brevo_url (Brevo.brevo_request (Brevo.BREVO_API_KEY a) p) with
    | Resolved resp =>
        resp_ok resp && match resp_json resp with Resolved _ => true | Rejected _ => false end
    | Rejected _ => false
    end
  else match smtp w p with Resolved _ => true | Rejected _ => false end.

End BrevoContract.

Definition smtp_delivered (p : message) (w : world) : bool :=
  match smtp w p with Resolved _ => true | Rejected _ => false end.

(** A handler of [POST /contact], once the application is configured. *)
Definition handler : Type :=
  option (gmap string value) -> world -> list event * result response.

(** The honeypot comes first: a filled [website] ends the request with the
    silent success, whatever the other fields hold, and no call is made. *)
Definition honeypot_first (sanitize : value -> jsstring) (h : handler) : Prop :=
  forall b w, sanitize (field b "website") ≠ [] -> h b w = ([], Resolved skipped).

(** The first failing rule alone answers, with its message and status 400,
    and no call is made. *)
Definition first_failure_wins (sanitize : value -> jsstring) (msg : rule -> jsstring)
    (h : handler) : Prop :=
  forall b w r,
    sanitize (field b "website") = [] ->
    rule_fails (read sanitize b) r = true ->
    (forall r', (rank r' < rank r)%nat -> rule_fails (read sanitize b) r' = false) ->
    h b w = ([], Resolved (validation_error (msg r))).

(** Past the honeypot and the name rule, the e-mail error is the answer
    exactly when the address is not of the basic pattern. *)
Definition email_rule (sanitize : value -> jsstring) (h : handler) : Prop :=
  forall b w,
    sanitize (field b "website") = [] ->
    (2 <= length (sanitize (field b "name")))%nat ->
    h b w = ([], Resolved (validation_error (lit "Invalid email address.")))
    <-> ~ basic_address (sanitize (field b "email")).

(** The handler sees the body through the sanitizer only; a [website] of
    whitespace is no honeypot hit; the lengths that the name, subject and
    message rules compare are those of the trimmed strings. *)
Definition sanitized_first (sanitize : value -> jsstring) (msg : rule -> jsstring)
    (h : handler) : Prop :=
  (forall raw, sanitize (VStr raw) = trim raw) /\
  (forall b1 b2 w, read sanitize b1 = read sanitize b2 -> h b1 w = h b2 w) /\
  (forall b w ws,
     field b "website" = VStr ws -> Forall (fun c => isWhiteSpace c = true) ws ->
     sanitize (field b "website") = [] /\ snd (h b w) ≠ Resolved skipped) /\
  (forall b w raw,
     sanitize (field b "website") = [] ->
     field b "name" = VStr raw ->
     h b w = ([], Resolved (validation_error (msg RName)))
     <-> (length (trim raw) < 2)%nat) /\
  (forall b w raw,
     sanitize (field b "website") = [] ->
     rule_fails (read sanitize b) RName = false ->
     rule_fails (read sanitize b) REmail = false ->
     field b "subject" = VStr raw ->
     h b w = ([], Resolved (validation_error (msg RSubject)))
     <-> (length (trim raw) < 2)%nat) /\
  (forall b w raw,
     sanitize (field b "website") = [] ->
     rule_fails (read sanitize b) RName = false ->
     rule_fails (read sanitize b) REmail = false ->
     rule_fails (read sanitize b) RSubject = false ->
     field b "message" = VStr raw ->
     h b w = ([], Resolved (validation_error (msg RMessage)))
     <-> (length (trim raw) < 10)%nat).






(** ** Sample configurations, worlds and bodies *)

Definition env_smtp : gmap string jsstring :=
  {[ "SMTP_HOST"%string := lit "smtp-relay.brevo.com";
     "SMTP_USER"%string := lit "user";
     "SMTP_PASS"%string := lit "secret" ]}.

Definition env_brevo : gmap string jsstring :=
  {[ "BREVO_API_KEY"%string := lit "xkeysib-1" ]}.

Definition env_key_and_smtp : gmap string jsstring :=
  <[ "BREVO_API_KEY"%string := lit "xkeysib-1" ]> env_smtp.


Definition world_up : world :=
  {| smtp := fun _ => Resolved tt;
     http := fun _ _ => Resolved {| resp_status := 201;
                                    resp_text := Resolved (lit "{}");
                                    resp_json := Resolved tt |};
     smtp_verify := Resolved (VBool true);
     now_ms := 1000;
     now_iso := lit "2025-01-01T00:00:00.000Z" |}.

Definition world_down : world :=
  {| smtp := fun _ => Rejected (mkError (lit "Connection timeout"));
     http := fun _ _ => Resolved {| resp_status := 401;
                                    resp_text := Resolved (lit "unauthorized");
                                    resp_json := Rejected (mkError (lit "bad json")) |};
     smtp_verify := Rejected (mkError (lit "Connection timeout"));
     now_ms := 1000;
     now_iso := lit "2025-01-01T00:00:00.000Z" |}.

Definition body_jane : gmap string value :=
  {[ "name"%string := VStr (lit "Jane Doe");
     "email"%string := VStr (lit "jane@example.com");
     "subject"%string := VStr (lit "Hello");
     "message"%string := VStr (lit "This is a test message.") ]}.

(** A bot: the honeypot is filled and nothing else is valid. *)
Definition body_bot : gmap string value :=
  {[ "name"%string := VStr (lit "x");
     "email"%string := VStr (lit "not an address");
     "website"%string := VStr (lit " http://spam.example ") ]}.

Definition server_app : Server.app :=
  {| Server.TO_EMAIL := lit "cmwingo@email.sc.edu";
     Server.FROM_EMAIL := lit "bmDub Contact <no-reply@bmdub.app>";
     Server.origins := parse_origins Server.default_origins;
     Server.transporter := {| t_host := lit "smtp-relay.brevo.com"; t_port := lit "587";
                              t_user := lit "user"; t_pass := lit "secret" |} |}.

Definition brevo_app : Brevo.app :=
  {| Brevo.BREVO_API_KEY := VStr (lit "xkeysib-1");
     Brevo.TO_EMAIL := lit "cmwingo@email.sc.edu";
     Brevo.FROM_EMAIL := lit "bmDub Contact <cwingo64@gmail.com>";
     Brevo.allowList := parse_origins Brevo.default_origins;
     Brevo.transporter := None |}.

Definition brevo_smtp_app : Brevo.app :=
  {| Brevo.BREVO_API_KEY := VUndefined;
     Brevo.TO_EMAIL := lit "cmwingo@email.sc.edu";
     Brevo.FROM_EMAIL := lit "bmDub Contact <cwingo64@gmail.com>";
     Brevo.allowList := parse_origins Brevo.default_origins;
     Brevo.transporter := Some {| t_host := lit "smtp-relay.brevo.com"; t_port := lit "587";
                                  t_user := lit "user"; t_pass := lit "secret" |} |}.


Definition request_evil : request :=
  {| req_method := POST; req_endpoint := Contact;
     req_origin := Some (lit "https://evil.example");
     req_ip := lit "203.0.113.7";
     req_body := Some body_jane |}.

Definition request_health : request :=
  {| req_method := GET; req_endpoint := Health;
     req_origin := None;
     req_ip := lit "203.0.113.7";
     req_body := None |}.

Definition world_later : world :=
  {| smtp := smtp world_up; http := http world_up; smtp_verify := smtp_verify world_up;
     now_ms := 61000;
     now_iso := lit "2025-01-01T00:01:00.000Z" |}.

(** Padded fields: a [website] of blanks and a name of one letter between
    blanks. *)
Definition body_padded : gmap string value :=
  {[ "website"%string := VStr (lit "   ");
     "name"%string := VStr (lit "  a  ") ]}.

(** ** [src/unnamed/part_000]: the earlier state of [server.js] *)

Module Early.

Record app := {
  TO_EMAIL : jsstring;
  FROM_EMAIL : jsstring;
  origins : list jsstring;
  transporter : transport
}.

Definition default_origins : jsstring :=
  lit "https://cwingo.github.io,https://Cwingo.github.io,http://localhost:5173,http://localhost:5174".

(** The top level of the file up to [app.listen]. *)
Definition startup (env : gmap string jsstring) : boot app :=
  let SMTP_HOST := getenv env "SMTP_HOST" in
  let SMTP_PORT := getenv_default env "SMTP_PORT" (lit "587") in
  let SMTP_USER := getenv env "SMTP_USER" in
  let SMTP_PASS := getenv env "SMTP_PASS" in
  if negb (truthy SMTP_HOST) || negb (truthy SMTP_USER) || negb (truthy SMTP_PASS)
  then Exit 1
  else Listening {|
    TO_EMAIL := getenv_default env "TO_EMAIL" (lit "cmwingo@email.sc.edu");
    FROM_EMAIL := getenv_default env "FROM_EMAIL" (lit "bmDub Contact <no-reply@bmdub.app>");
    origins := parse_origins
                 (ToString (js_or (getenv env "CORS_ORIGINS") (VStr default_origins)));
    transporter := {| t_host := ToString SMTP_HOST; t_port := SMTP_PORT;
                      t_user := ToString SMTP_USER; t_pass := ToString SMTP_PASS |}
  |}.

(** [String(s || '').toString().trim()] *)
Definition sanitize (s : value) : jsstring :=
  trim (ToString (js_or s (VStr []))).

(** The handler of [POST /contact]; the text is the template as it stands. *)
Definition contact (a : app) (req_body : option (gmap string value)) : io response :=
  try_catch
    (let name := sanitize (field req_body "name") in
     let email := sanitize (field req_body "email") in
     let subject := sanitize (field req_body "subject") in
     let message := sanitize (field req_body "message") in
     let source := sanitize (field req_body "source") in
     let honeypot := sanitize (field req_body "website") in
     if nonEmpty honeypot then
       ret (json 200 [("ok", VBool true); ("skip", VBool true)])
     else if negb (nonEmpty name) || (length name <? 2)%nat then
       ret (json 400 [("error", VStr (lit "Name is required and must be at least 2 characters."))])
     else if negb (isEmail (VStr email)) then
       ret (json 400 [("error", VStr (lit "Invalid email address."))])
     else if negb (nonEmpty subject) || (length subject <? 2)%nat then
       ret (json 400 [("error", VStr (lit "Subject is required and must be at least 2 characters."))])
     else if negb (nonEmpty message) || (length message <? 10)%nat then
       ret (json 400 [("error", VStr (lit "Message is required and must be at least 10 characters."))])
     else
       let text := text_template name email subject source message in
       let* _ := sendMail {|
                   msg_to := TO_EMAIL a;
                   msg_from := FROM_EMAIL a;
                   msg_replyTo := name ++ lit " <" ++ email ++ lit ">";
                   msg_subject := lit "[bmDub Contact] " ++ subject;
                   msg_text := text |} in
       ret (json 200 [("ok", VBool true); ("message", VStr (lit "Email sent successfully."))]))
    (fun err =>
       ret (json 500 [("error", VStr (lit "Failed to send email. Please try again later."))])).

(** [GET /] and [GET /health]; the file has no [/debug/verify]. *)
Definition root : io response :=
  fun w => ret (json 200 [("ok", VBool true); ("service", VStr (lit "bmDub API"));
                          ("time", VStr (now_iso w))]) w.

Definition health : io response := ret (json 200 [("ok", VBool true)]).

Definition routes (a : app) (req : request) : io response :=
  match req_method req, req_endpoint req with
  | GET, Root => root
  | GET, Health => health
  | POST, Contact => contact a (req_body req)
  | _, _ => ret not_found
  end.

Definition serve (a : app) := chain (origins a) (routes a).

End Early.

(** ** Further notions used in the statements *)

(** A string that neither starts nor ends with a whitespace unit. *)
Definition edge_clean (s : jsstring) : Prop :=
  (forall c, head s = Some c -> isWhiteSpace c = false) /\
  (forall c, last s = Some c -> isWhiteSpace c = false).

(** [pieces.join(',')] *)
Fixpoint join_comma (pieces : list jsstring) : jsstring :=
  match pieces with
  | [] => []
  | [p] => p
  | p :: rest => p ++ 44 :: join_comma rest
  end.

(** The text of the mail of [server.js] and of the API-capable variant,
    written out. *)
Definition mail_text (s : submission) : jsstring :=
  lit "New contact form submission" ++ nl
  ++ nl
  ++ lit "Name: " ++ sub_name s ++ nl
  ++ lit "Email: " ++ sub_email s ++ nl
  ++ lit "Subject: " ++ sub_subject s ++ nl
  ++ lit "Source: " ++ (if nonEmpty (sub_source s) then sub_source s else lit "form") ++ nl
  ++ nl
  ++ lit "Message:" ++ nl
  ++ sub_message s.

(** The status of the response a handler run ends with; 0 stands for a
    run that throws. *)
Definition final_status (r : list event * result response) : N :=
  match snd r with
  | Resolved resp => status resp
  | Rejected _ => 0
  end.

Definition early_app : Early.app :=
  {| Early.TO_EMAIL := lit "cmwingo@email.sc.edu";
     Early.FROM_EMAIL := lit "bmDub Contact <no-reply@bmdub.app>";
     Early.origins := parse_origins Early.default_origins;
     Early.transporter := {| t_host := lit "smtp-relay.brevo.com"; t_port := lit "587";
                             t_user := lit "user"; t_pass := lit "secret" |} |}.

(** An environment whose [CORS_ORIGINS] is set to the empty string. *)
Definition env_blank_origins : gmap string jsstring :=
  <[ "CORS_ORIGINS"%string := [] ]> env_smtp.

(** A valid submission whose name holds a [<]. *)
Definition body_heart : gmap string value :=
  <[ "name"%string := VStr (lit "I <3 cats") ]> body_jane.

(** The message of the earlier state: the text is the whole template. *)
Definition outgoing_untrimmed (from to : jsstring) (s : submission) : message :=
  {| msg_to := to;
     msg_from := from;
     msg_replyTo := sub_name s ++ lit " <" ++ sub_email s ++ lit ">";
     msg_subject := lit "[bmDub Contact] " ++ sub_subject s;
     msg_text := text_template (sub_name s) (sub_email s) (sub_subject s)
                   (sub_source s) (sub_message s) |}.

(** A handler that always answers, with status 200, 400 or 500, after at
    most one outside call, made for submissions that pass every check
    only. *)
Definition always_answers (sanitize : value -> jsstring) (h : handler) : Prop :=
  forall b w,
    (final_status (h b w) = 200 \/ final_status (h b w) = 400
     \/ final_status (h b w) = 500) /\
    (length (fst (h b w)) <= 1)%nat /\
    (fst (h b w) ≠ [] ->
     sanitize (field b "website") = [] /\
     forall r, rule_fails (read sanitize b) r = false).


(** A valid submission whose e-mail holds a [>]. *)
Definition body_gt : gmap string value :=
  <[ "email"%string := VStr (lit "a>b@c.de") ]> body_jane.

(** The text of the mail for [body_jane]. *)
Definition jane_text : jsstring :=
  lit "New contact form submission" ++ nl ++ nl
  ++ lit "Name: Jane Doe" ++ nl
  ++ lit "Email: jane@example.com" ++ nl
  ++ lit "Subject: Hello" ++ nl
  ++ lit "Source: form" ++ nl ++ nl
  ++ lit "Message:" ++ nl
  ++ lit "This is a test message.".

(** The message built for [body_jane]. *)
Definition jane_message (from to : jsstring) : message :=
  {| msg_to := to;
     msg_from := from;
     msg_replyTo := lit "Jane Doe <jane@example.com>";
     msg_subject := lit "[bmDub Contact] Hello";
     msg_text := jane_text |}.

(** The request sent to Brevo for [body_jane]. *)
Definition jane_fetch (key : value) (from to : jsstring) : fetch_init :=
  {| fi_method := lit "POST";
     fi_headers := [(lit "api-key", ToString key);
                    (lit "accept", lit "application/json");
                    (lit "content-type", lit "application/json")];
     fi_body := {| bb_sender := Brevo.extractEmail from;
                   bb_to := [Brevo.extractEmail to];
                   bb_replyTo := Some (lit "jane@example.com");
                   bb_subject := lit "[bmDub Contact] Hello";
                   bb_textContent := jane_text |} |}.

(** * Properties *)

(** ** Sample runs *)

Example isEmail_accepts : isEmail (VStr (lit "a@b.co")) = true.
Proof. reflexivity. Qed.

Example isEmail_needs_tld : isEmail (VStr (lit "a@b.")) = false.
Proof. reflexivity. Qed.

Example isEmail_single_at : isEmail (VStr (lit "a@b@c.d")) = false.
Proof. reflexivity. Qed.

Example isEmail_no_space : isEmail (VStr (lit "a b@c.d")) = false.
Proof. reflexivity. Qed.

Example extractEmail_sender :
  Brevo.extractEmail (lit "bmDub Contact <cwingo64@gmail.com>") = lit "cwingo64@gmail.com".
Proof. reflexivity. Qed.

Example extractEmail_recipient :
  Brevo.extractEmail (lit "cmwingo@email.sc.edu") = lit "cmwingo@email.sc.edu".
Proof. reflexivity. Qed.

Example sanitize_blank :
  Server.sanitize (VStr (lit "  a b  ")) = lit "a b" /\
  Server.sanitize VUndefined = [] /\ Brevo.sanitize VNull = [].
Proof. repeat split. Qed.

(** [s || ''] and [s ?? ''] part ways on [false]. *)
Example sanitize_false :
  Server.sanitize (VBool false) = [] /\ Brevo.sanitize (VBool false) = lit "false".
Proof. split; reflexivity. Qed.

(** The allow-list is matched code unit for code unit. *)
Example origin_case_matters :
  origin_callback (Server.origins server_app) (Some (lit "https://Cwingo.github.io"))
  = Resolved true /\
  origin_callback (Server.origins server_app) (Some (lit "https://CWINGO.github.io"))
  = Rejected (mkError (lit "Not allowed by CORS")).
Proof. split; vm_compute; reflexivity. Qed.

Example server_jane_sent :
  Server.contact server_app (Some body_jane) world_up
  = ([EvSendMail {| msg_to := lit "cmwingo@email.sc.edu";
                    msg_from := lit "bmDub Contact <no-reply@bmdub.app>";
                    msg_replyTo := lit "Jane Doe <jane@example.com>";
                    msg_subject := lit "[bmDub Contact] Hello";
                    msg_text := lit "New contact form submission" ++ nl ++ nl
                                ++ lit "Name: Jane Doe" ++ nl
                                ++ lit "Email: jane@example.com" ++ nl
                                ++ lit "Subject: Hello" ++ nl
                                ++ lit "Source: form" ++ nl ++ nl
                                ++ lit "Message:" ++ nl
                                ++ lit "This is a test message." |}],
     Resolved sent).
Proof. vm_compute. reflexivity. Qed.

Example brevo_jane_reply_to :
  fst (Brevo.contact brevo_app (Some body_jane) world_up)
  = [EvFetch Brevo.brevo_url
       (Brevo.brevo_request (VStr (lit "xkeysib-1"))
          (outgoing (lit "bmDub Contact <cwingo64@gmail.com>") (lit "cmwingo@email.sc.edu")
             (read Brevo.sanitize (Some body_jane))))]
  /\ bb_replyTo (fi_body (Brevo.brevo_request (VStr (lit "xkeysib-1"))
                            (outgoing (lit "bmDub Contact <cwingo64@gmail.com>")
                               (lit "cmwingo@email.sc.edu")
                               (read Brevo.sanitize (Some body_jane)))))
     = Some (lit "jane@example.com").
Proof. split; vm_compute; reflexivity. Qed.

(** ** Strings *)

Lemma nonEmpty_nil (s : jsstring) : nonEmpty s = false <-> s = [].
Proof. destruct s; simpl; split; intros; done. Qed.

Lemma nonEmpty_true (s : jsstring) : nonEmpty s = true <-> s ≠ [].
Proof. destruct s; simpl; split; intros; done. Qed.

Lemma required_min (s : jsstring) (n : nat) :
  negb (nonEmpty s) || (length s <? S n)%nat = (length s <? S n)%nat.
Proof. destruct s; reflexivity. Qed.

Lemma sample_apps :
  Server.startup env_smtp = Listening server_app /\
  Brevo.startup env_brevo = Listening brevo_app /\
  Brevo.startup env_smtp = Listening brevo_smtp_app.
Proof. repeat split; vm_compute; reflexivity. Qed.

(** ** The two handlers, case by case *)

Ltac handler_cases :=
  unfold first_failure, rules, find, rule_fails, read; cbn [sub_name sub_email
    sub_subject sub_message sub_source sub_honeypot];
  rewrite ?required_min;
  repeat match goal with
         | |- context [if nonEmpty (?f (field ?b ?k)) then _ else _] =>
             destruct (nonEmpty (f (field b k))) eqn:?
         | |- context [if (length ?x <? ?n)%nat then _ else _] =>
             destruct (length x <? n)%nat eqn:?
         | |- context [if negb (isEmail ?x) then _ else _] =>
             destruct (isEmail x) eqn:?; cbn [negb]
         end.

Lemma server_contact_cases (a : Server.app) (b : option (gmap string value)) (w : world) :
  let s := read Server.sanitize b in
  Server.contact a b w =
    if nonEmpty (sub_honeypot s) then ([], Resolved skipped)
    else match first_failure s with
         | Some r => ([], Resolved (validation_error (long_message r)))
         | None =>
             let m := outgoing (Server.FROM_EMAIL a) (Server.TO_EMAIL a) s in
             ([EvSendMail m],
              Resolved match smtp w m with
                       | Resolved _ => sent
                       | Rejected e => json 500 [("error", VStr (error_text e))]
                       end)
         end.
Proof.
  intros s. subst s. unfold Server.contact, try_catch.
  handler_cases; try reflexivity.
  unfold bind, sendMail, ret, outgoing; cbn [sub_name sub_email sub_subject
    sub_message sub_source sub_honeypot].
  destruct (smtp w _); reflexivity.
Qed.

Lemma trimStart_snoc (x : jsstring) (c : N) :
  isWhiteSpace c = true ->
  trimStart (x ++ [c]) = if forallb isWhiteSpace x then [] else trimStart x ++ [c].
Proof.
  intros Hc. induction x as [|d x IH]; simpl.
  - now rewrite Hc.
  - destruct (isWhiteSpace d); simpl; [exact IH | reflexivity].
Qed.

Lemma trimStart_all (x : jsstring) :
  forallb isWhiteSpace x = true -> trimStart x = [].
Proof.
  induction x as [|d x IH]; simpl; [reflexivity|].
  destruct (isWhiteSpace d); simpl; [exact IH | discriminate].
Qed.

(** A trailing whitespace unit does not survive [trim]: the template of the
    variant, which ends with a newline, gives the same text. *)
Lemma trim_snoc (x : jsstring) (c : N) :
  isWhiteSpace c = true -> trim (x ++ [c]) = trim x.
Proof.
  intros Hc. unfold trim. rewrite trimStart_snoc by assumption.
  destruct (forallb isWhiteSpace x) eqn:Hall.
  - now rewrite trimStart_all.
  - unfold trimEnd. rewrite rev_app_distr. simpl. now rewrite Hc.
Qed.

Lemma brevo_startup_inv (env : gmap string jsstring) (a : Brevo.app) :
  Brevo.startup env = Listening a ->
  (truthy (Brevo.BREVO_API_KEY a) = true /\ Brevo.transporter a = None) \/
  (truthy (Brevo.BREVO_API_KEY a) = false /\ exists t, Brevo.transporter a = Some t).
Proof.
  unfold Brevo.startup.
  destruct (truthy (getenv env "BREVO_API_KEY")) eqn:Hk; cbn [negb].
  - intros [= <-]. left. split; [exact Hk | reflexivity].
  - destruct (_ || _); [discriminate|].
    intros [= <-]. right. split; [exact Hk | eexists; reflexivity].
Qed.

Lemma brevo_contact_cases (env : gmap string jsstring) (a : Brevo.app)
    (b : option (gmap string value)) (w : world) :
  Brevo.startup env = Listening a ->
  let s := read Brevo.sanitize b in
  Brevo.contact a b w =
    if nonEmpty (sub_honeypot s) then ([], Resolved skipped)
    else match first_failure s with
         | Some r => ([], Resolved (validation_error (short_message r)))
         | None =>
             let p := outgoing (Brevo.FROM_EMAIL a) (Brevo.TO_EMAIL a) s in
             ([BrevoContract.dispatch a p],
              Resolved (if BrevoContract.delivered a p w then sent
                        else json 500 [("error", VStr (lit "Failed to send email. Please try again later."))]))
         end.
Proof.
  intros Hstart s. subst s. unfold Brevo.contact, try_catch.
  handler_cases; try reflexivity.
  unfold nl. rewrite trim_snoc by reflexivity.
  unfold BrevoContract.dispatch, BrevoContract.delivered, outgoing;
    cbn [sub_name sub_email sub_subject sub_message sub_source sub_honeypot
         msg_to msg_from msg_replyTo msg_subject msg_text].
  unfold bind at 1.
  destruct (brevo_startup_inv env a Hstart) as [[Hk Ht] | [Hk [t Ht]]]; rewrite Hk.
  - unfold Brevo.sendViaBrevoAPI, bind, fetch, throw, await, ret.
    destruct (http w _ _) as [resp|e]; [|reflexivity].
    destruct (resp_ok resp); cbn [negb andb]; [|reflexivity].
    destruct (resp_json resp) as [[]|e]; reflexivity.
  - rewrite Ht. unfold sendMail, ret.
    destruct (smtp w _) as [[]|e]; reflexivity.
Qed.

(** ** The regular-expression matcher *)

Lemma plus_loop_Some (a : atom) (k : list N -> capture -> option capture)
    (s : jsstring) (g : capture) :
  is_Some (plus_loop a k s g) <->
  exists p q : jsstring,
    p ≠ [] /\ s = p ++ q /\ Forall (fun c => atom_matches a c = true) p /\
    is_Some (k q (pushes p g)).
Proof.
  revert g. induction s as [|c s IH]; intros g; simpl.
  - split.
    + intros [x Hx]. discriminate.
    + intros (p & q & Hp & Hs & _). destruct p; [done | discriminate].
  - destruct (atom_matches a c) eqn:Hc.
    + split.
      * intros Hsome.
        destruct (plus_loop a k s (push c g)) eqn:Hrec.
        -- destruct (proj1 (IH (push c g))) as (p & q & Hp & Hs & Hall & Hk);
             [rewrite Hrec; eauto|].
           exists (c :: p), q. repeat split; [done | now rewrite Hs | |exact Hk].
           constructor; assumption.
        -- exists [c], s. repeat split; [done | | exact Hsome].
           constructor; [assumption | constructor].
      * intros (p & q & Hp & Hs & Hall & Hk).
        destruct p as [|c' p]; [done|]. injection Hs as -> ->.
        destruct (plus_loop a k (p ++ q) (push c' g)) eqn:Hrec; [eauto|].
        destruct p as [|c2 p]; [exact Hk|].
        exfalso. assert (Hs : is_Some (plus_loop a k ((c2 :: p) ++ q) (push c' g))).
        { apply IH. exists (c2 :: p), q. repeat split; [done | | exact Hk].
          now inversion Hall. }
        rewrite Hrec in Hs. destruct Hs as [x Hx]. discriminate.
    + split.
      * intros [x Hx]. discriminate.
      * intros (p & q & Hp & Hs & Hall & _).
        destruct p as [|c' p]; [done|]. injection Hs as -> ->.
        inversion Hall; congruence.
Qed.

Lemma match_Plus_Some (a : atom) (r : list node) (bol : bool) (s : jsstring) (g : capture) :
  is_Some (match_here (Plus a :: r) bol s g) <->
  exists p q : jsstring,
    p ≠ [] /\ s = p ++ q /\ Forall (fun c => atom_matches a c = true) p /\
    is_Some (match_here r false q (pushes p g)).
Proof. exact (plus_loop_Some a (match_here r false) s g). Qed.

Lemma match_One_Some (a : atom) (r : list node) (bol : bool) (s : jsstring) (g : capture) :
  is_Some (match_here (One a :: r) bol s g) <->
  exists c s', s = c :: s' /\ atom_matches a c = true /\
               is_Some (match_here r false s' (push c g)).
Proof.
  simpl. destruct s as [|c s].
  - split; [intros [x Hx]; discriminate | intros (c & s' & Hs & _); discriminate].
  - destruct (atom_matches a c) eqn:Hc.
    + split; [eauto 6|]. now intros (c' & s' & [= <- <-] & _ & H).
    + split; [intros [x Hx]; discriminate|].
      intros (c' & s' & [= <- <-] & H & _). congruence.
Qed.

Lemma match_Eol_Some (bol : bool) (s : jsstring) (g : capture) :
  is_Some (match_here [Eol] bol s g) <-> s = [].
Proof.
  destruct s as [|c s]; simpl; split; intros H.
  - reflexivity.
  - eauto.
  - destruct H as [x Hx]; discriminate.
  - discriminate.
Qed.

Lemma search_Bol_later (r : list node) (s : jsstring) :
  search (Bol :: r) false s = None.
Proof. induction s as [|c s IH]; simpl; [reflexivity | exact IH]. Qed.

Lemma test_anchored (r : list node) (s : jsstring) :
  test (Bol :: r) s = true <-> is_Some (match_here r true s Unset).
Proof.
  unfold test. destruct s as [|c s]; simpl;
    destruct (match_here r true _ Unset) eqn:Hm; rewrite ?search_Bol_later;
    split; intros H; try done; eauto; destruct H as [x Hx]; discriminate.
Qed.

Lemma part_atom_matches (c : N) :
  atom_matches part_atom c = true <-> isWhiteSpace c = false /\ c ≠ c_at.
Proof.
  unfold part_atom, atom_matches, existsb, item_matches.
  rewrite orb_false_r. destruct (isWhiteSpace c); simpl.
  - split; [discriminate | intros [? _]; discriminate].
  - destruct (N.eqb_spec c c_at); simpl; split; intros H; try done.
    + destruct H as [_ H]. done.
Qed.

(** The language of [re_email], part by part. *)
Lemma re_email_shape (s : jsstring) :
  test re_email s = true <->
  exists l d t : jsstring,
    s = l ++ [c_at] ++ d ++ [c_dot] ++ t /\ l ≠ [] /\ d ≠ [] /\ t ≠ [] /\
    Forall (fun c => atom_matches part_atom c = true) (l ++ d ++ t).
Proof.
  unfold re_email. rewrite test_anchored, match_Plus_Some. split.
  - intros (l & q1 & Hl & -> & Fl & H1).
    apply match_One_Some in H1 as (c1 & q2 & -> & Hc1 & H2).
    apply match_Plus_Some in H2 as (d & q3 & Hd & -> & Fd & H3).
    apply match_One_Some in H3 as (c2 & q4 & -> & Hc2 & H4).
    apply match_Plus_Some in H4 as (t & q5 & Ht & -> & Ft & H5).
    apply match_Eol_Some in H5 as ->.
    apply N.eqb_eq in Hc1 as ->. apply N.eqb_eq in Hc2 as ->.
    exists l, d, t. rewrite app_nil_r. repeat split; try assumption.
    rewrite !Forall_app. auto.
  - intros (l & d & t & -> & Hl & Hd & Ht & F).
    rewrite !Forall_app in F. destruct F as (Fl & Fd & Ft).
    exists l, ([c_at] ++ d ++ [c_dot] ++ t). repeat split; try assumption.
    apply match_One_Some. exists c_at, (d ++ [c_dot] ++ t).
    repeat split. apply match_Plus_Some.
    exists d, ([c_dot] ++ t). repeat split; try assumption.
    apply match_One_Some. exists c_dot, t. repeat split.
    apply match_Plus_Some.
    exists t, []. rewrite app_nil_r. repeat split; try assumption.
    now apply match_Eol_Some.
Qed.

Lemma isEmail_string (s : jsstring) : isEmail (VStr s) = test re_email s.
Proof. unfold isEmail, js_or. destruct s; reflexivity. Qed.

(** [isEmail] accepts exactly the basic address pattern. *)
Lemma isEmail_basic_address (s : jsstring) :
  isEmail (VStr s) = true <-> basic_address s.
Proof.
  rewrite isEmail_string, re_email_shape. unfold basic_address. split.
  - intros (l & d & t & -> & Hl & Hd & Ht & F).
    rewrite !Forall_app in F. destruct F as (Fl & Fd & Ft).
    rewrite !Forall_forall in Fl, Fd, Ft.
    split.
    + intros c Hc. rewrite !elem_of_app, !list_elem_of_singleton in Hc.
      destruct Hc as [Hc|[->|[Hc|[->|Hc]]]]; try reflexivity.
      * now apply part_atom_matches, Fl.
      * now apply part_atom_matches, Fd.
      * now apply part_atom_matches, Ft.
    + exists l, d, t. repeat split; try assumption.
      * intros Hin. now apply Fl, part_atom_matches in Hin.
      * intros Hin. now apply Fd, part_atom_matches in Hin.
      * intros Hin. now apply Ft, part_atom_matches in Hin.
  - intros (Hws & l & d & t & -> & Hl & Hd & Ht & Nl & Nd & Nt).
    exists l, d, t. repeat split; try assumption.
    rewrite !Forall_app, !Forall_forall.
    repeat split; intros c Hc; apply part_atom_matches; split;
      try (apply Hws; rewrite !elem_of_app; auto 6);
      intros ->; auto.
Qed.

(** ** [extractEmail] *)

Lemma pushes_Opened (p acc : jsstring) : pushes p (Opened acc) = Opened (acc ++ p).
Proof.
  revert acc. induction p as [|c p IH]; intros acc; simpl.
  - now rewrite app_nil_r.
  - unfold pushes in IH. rewrite IH, <- app_assoc. reflexivity.
Qed.

(** The greedy loop stops at the first code unit outside the class when the
    continuation matches there. *)
Lemma plus_loop_run (a : atom) (k : list N -> capture -> option capture)
    (p rest : jsstring) (c : N) (g g' : capture) :
  p ≠ [] -> Forall (fun x => atom_matches a x = true) p ->
  atom_matches a c = false ->
  k (c :: rest) (pushes p g) = Some g' ->
  plus_loop a k (p ++ c :: rest) g = Some g'.
Proof.
  revert g. induction p as [|x p IH]; intros g Hp Hall Hc Hk; [done|].
  apply Forall_cons in Hall as [Hx Hall]. simpl. rewrite Hx.
  destruct p as [|y p].
  - simpl. rewrite Hc. exact Hk.
  - rewrite (IH (push x g)); [reflexivity | done | assumption | assumption | exact Hk].
Qed.

Lemma bracket_class_matches (c : N) :
  atom_matches (Class true [ItemChar c_gt]) c = true <-> c ≠ c_gt.
Proof.
  unfold atom_matches, existsb, item_matches. rewrite orb_false_r.
  destruct (N.eqb_spec c c_gt); simpl; split; intros H; done.
Qed.

Lemma match_bracket_at (addr rest : jsstring) (bol : bool) :
  addr ≠ [] -> c_gt ∉ addr ->
  match_here re_bracket bol (c_lt :: addr ++ c_gt :: rest) Unset = Some (Closed addr).
Proof.
  intros Hne Hgt. unfold re_bracket.
  change (plus_loop (Class true [ItemChar c_gt])
            (match_here [GroupClose; One (Lit c_gt)] false)
            (addr ++ c_gt :: rest) (Opened []) = Some (Closed addr)).
  apply plus_loop_run.
  - exact Hne.
  - apply Forall_forall. intros x Hx. apply bracket_class_matches. intros ->. done.
  - reflexivity.
  - rewrite pushes_Opened. reflexivity.
Qed.

Lemma search_bracket_step (c : N) (s : jsstring) (bol : bool) :
  c ≠ c_lt -> search re_bracket bol (c :: s) = search re_bracket false s.
Proof.
  intros Hc. cbn [search]. unfold re_bracket at 1. cbn [match_here atom_matches].
  destruct (N.eqb_spec c c_lt) as [->|_]; [done | reflexivity].
Qed.

Lemma search_bracket_bol (s : jsstring) (bol : bool) :
  search re_bracket bol s = search re_bracket false s.
Proof. destruct s; reflexivity. Qed.

Lemma search_bracket_skip (pre s : jsstring) (bol : bool) :
  c_lt ∉ pre -> search re_bracket bol (pre ++ s) = search re_bracket bol s.
Proof.
  revert bol. induction pre as [|c pre IH]; intros bol Hlt; [reflexivity|].
  apply not_elem_of_cons in Hlt as [Hc Hlt]. cbn [app].
  rewrite search_bracket_step by done.
  rewrite IH by assumption. symmetry. apply search_bracket_bol.
Qed.

Lemma search_bracket_none (s : jsstring) (bol : bool) :
  c_lt ∉ s -> search re_bracket bol s = None.
Proof.
  intros H. rewrite <- (app_nil_r s), search_bracket_skip by assumption. reflexivity.
Qed.

Lemma extractEmail_display (display addr : jsstring) :
  c_lt ∉ display -> addr ≠ [] -> c_gt ∉ addr ->
  Brevo.extractEmail (display_form display addr) = addr.
Proof.
  intros Hd Hne Ha. unfold Brevo.extractEmail, exec, display_form.
  change (lit " <" ++ addr ++ lit ">") with ([32] ++ c_lt :: addr ++ c_gt :: []).
  rewrite app_assoc, search_bracket_skip.
  - unfold search at 1. rewrite match_bracket_at by assumption.
    apply nonEmpty_true in Hne. now rewrite Hne.
  - intros Hin. apply elem_of_app in Hin as [Hin|Hin]; [done|].
    apply list_elem_of_singleton in Hin. discriminate.
Qed.

Lemma extractEmail_plain (v : jsstring) :
  c_lt ∉ v -> Brevo.extractEmail v = v.
Proof.
  intros H. unfold Brevo.extractEmail, exec. now rewrite search_bracket_none.
Qed.

(** ** The sanitizers *)

Lemma server_sanitize_string (raw : jsstring) : Server.sanitize (VStr raw) = trim raw.
Proof. unfold Server.sanitize, js_or. destruct raw; reflexivity. Qed.

Lemma brevo_sanitize_string (raw : jsstring) : Brevo.sanitize (VStr raw) = trim raw.
Proof. reflexivity. Qed.

Lemma trim_whitespace (ws : jsstring) :
  Forall (fun c => isWhiteSpace c = true) ws -> trim ws = [].
Proof.
  intros H. unfold trim. rewrite trimStart_all; [reflexivity|].
  apply forallb_forall. intros c Hc. rewrite Forall_forall in H.
  apply H. now apply list_elem_of_In.
Qed.

(** ** Validation *)

Lemma brevo_contact_early (a : Brevo.app) (b : option (gmap string value)) (w : world) :
  let s := read Brevo.sanitize b in
  (nonEmpty (sub_honeypot s) = true -> Brevo.contact a b w = ([], Resolved skipped)) /\
  (forall r, nonEmpty (sub_honeypot s) = false -> first_failure s = Some r ->
             Brevo.contact a b w = ([], Resolved (validation_error (short_message r)))).
Proof.
  intros s. subst s. unfold Brevo.contact, try_catch. split.
  - cbn [read sub_honeypot]. intros ->. reflexivity.
  - intros r. cbn [read sub_honeypot]. intros ->.
    handler_cases; intros [= <-]; reflexivity.
Qed.

Lemma first_failure_name (s : submission) :
  (length (sub_name s) < 2)%nat -> first_failure s = Some RName.
Proof.
  intros H. unfold first_failure, rules, find, rule_fails.
  apply Nat.ltb_lt in H. now rewrite H.
Qed.

Lemma first_failure_None (s : submission) :
  first_failure s = None <-> forall r, rule_fails s r = false.
Proof.
  unfold first_failure, rules, find. split.
  - intros H r.
    destruct (rule_fails s RName) eqn:H1; [discriminate|].
    destruct (rule_fails s REmail) eqn:H2; [discriminate|].
    destruct (rule_fails s RSubject) eqn:H3; [discriminate|].
    destruct (rule_fails s RMessage) eqn:H4; [discriminate|].
    destruct r; assumption.
  - intros H. now rewrite !H.
Qed.

Lemma server_honeypot_first (a : Server.app) :
  honeypot_first Server.sanitize (Server.contact a).
Proof.
  intros b w H. rewrite server_contact_cases. cbn [read sub_honeypot].
  apply nonEmpty_true in H. now rewrite H.
Qed.

Lemma brevo_honeypot_first (a : Brevo.app) :
  honeypot_first Brevo.sanitize (Brevo.contact a).
Proof.
  intros b w H. apply brevo_contact_early. cbn [read sub_honeypot].
  now apply nonEmpty_true.
Qed.

(** C1. A request whose [website] field is not empty once sanitized is
    answered 200 [{ok: true, skip: true}] by both handlers: the answer is
    the same whatever the other fields hold, so none of the four rules
    decides anything, and the record of outside calls is empty, so no mail
    is sent. *)
Theorem honeypot_short_circuits :
  (forall a : Server.app, honeypot_first Server.sanitize (Server.contact a)) /\
  (forall a : Brevo.app, honeypot_first Brevo.sanitize (Brevo.contact a)) /\
  skipped = {| status := 200;
               body := Json [("ok", VBool true); ("skip", VBool true)];
               rate := None |}.
Proof.
  split; [exact server_honeypot_first|].
  split; [exact brevo_honeypot_first | reflexivity].
Qed.

Lemma honeypot_short_circuits_witness :
  (Server.sanitize (field (Some body_bot) "website") ≠ [] /\
   Server.contact server_app (Some body_bot) world_down = ([], Resolved skipped)) /\
  (Brevo.sanitize (field (Some body_bot) "website") ≠ [] /\
   Brevo.contact brevo_app (Some body_bot) world_down = ([], Resolved skipped)).
Proof.
  destruct honeypot_short_circuits as (HS & HB & _).
  assert (H1 : Server.sanitize (field (Some body_bot) "website") ≠ [])
    by (vm_compute; discriminate).
  assert (H2 : Brevo.sanitize (field (Some body_bot) "website") ≠ [])
    by (vm_compute; discriminate).
  split; (split; [assumption|]).
  - apply (HS server_app (Some body_bot) world_down H1).
  - apply (HB brevo_app (Some body_bot) world_down H2).
Defined.

Lemma first_failure_ranked (s : submission) (r : rule) :
  first_failure s = Some r <->
  rule_fails s r = true /\
  forall r', (rank r' < rank r)%nat -> rule_fails s r' = false.
Proof.
  unfold first_failure, rules, find. split.
  - destruct (rule_fails s RName) eqn:H1; [intros [= <-]; split; [assumption|];
      intros r' Hr'; simpl in Hr'; lia|].
    destruct (rule_fails s REmail) eqn:H2; [intros [= <-]; split; [assumption|];
      intros [] Hr'; simpl in Hr'; first [assumption | lia]|].
    destruct (rule_fails s RSubject) eqn:H3; [intros [= <-]; split; [assumption|];
      intros [] Hr'; simpl in Hr'; first [assumption | lia]|].
    destruct (rule_fails s RMessage) eqn:H4; [intros [= <-]; split; [assumption|];
      intros [] Hr'; simpl in Hr'; first [assumption | lia]|].
    discriminate.
  - intros [Hr Hlt].
    destruct r; simpl in Hlt;
      rewrite ?(Hlt RName), ?(Hlt REmail), ?(Hlt RSubject) by (simpl; lia);
      now rewrite Hr.
Qed.

Lemma server_first_failure_wins (a : Server.app) :
  first_failure_wins Server.sanitize long_message (Server.contact a).
Proof.
  intros b w r Hh Hr Hlt. rewrite server_contact_cases. cbn [read sub_honeypot].
  rewrite Hh. cbn [nonEmpty truthy length Nat.eqb negb].
  now rewrite (proj2 (first_failure_ranked _ r) (conj Hr Hlt)).
Qed.

Lemma brevo_first_failure_wins (a : Brevo.app) :
  first_failure_wins Brevo.sanitize short_message (Brevo.contact a).
Proof.
  intros b w r Hh Hr Hlt. apply brevo_contact_early.
  - cbn [read sub_honeypot]. now rewrite Hh.
  - now apply first_failure_ranked.
Qed.

(** C3, amended.  Past the honeypot, the rules are tried in the order name,
    e-mail, subject, message, and a submission failing one of them is
    answered by the first failing rule alone: status 400, a body with the
    single field [error] holding the message of that rule, and no outside
    call.  The messages are those of the specification in [server.js] and
    shorter ones in the API-capable variant; a missing or too short name
    is the first failure and yields
    "Name is required and must be at least 2 characters." in the former,
    "Name is required (min 2 chars)." in the latter. *)
Theorem validation_first_failure_wins :
  (forall a : Server.app,
     first_failure_wins Server.sanitize long_message (Server.contact a)) /\
  (forall a : Brevo.app,
     first_failure_wins Brevo.sanitize short_message (Brevo.contact a)) /\
  (forall s : submission,
     (length (sub_name s) < 2)%nat ->
     rule_fails s RName = true /\
     forall r', (rank r' < rank RName)%nat -> rule_fails s r' = false) /\
  long_message RName = lit "Name is required and must be at least 2 characters." /\
  short_message RName = lit "Name is required (min 2 chars)." /\
  (forall msg, validation_error msg
               = {| status := 400; body := Json [("error", VStr msg)]; rate := None |}).
Proof.
  split; [exact server_first_failure_wins|].
  split; [exact brevo_first_failure_wins|].
  split; [|repeat split].
  intros s H. split.
  - simpl. now apply Nat.ltb_lt.
  - intros r' Hr'. simpl in Hr'. lia.
Qed.

Lemma validation_first_failure_wins_witness :
  Server.contact server_app (Some ∅) world_up
  = ([], Resolved (validation_error (lit "Name is required and must be at least 2 characters.")))
  /\ Brevo.contact brevo_app (Some ∅) world_up
     = ([], Resolved (validation_error (lit "Name is required (min 2 chars)."))).
Proof.
  destruct validation_first_failure_wins as (HS & HB & Hname & _).
  assert (Hshort : forall sanitize : value -> jsstring,
             sanitize VUndefined = [] ->
             (length (sub_name (read sanitize (Some ∅))) < 2)%nat).
  { intros sanitize H. cbn [read sub_name]. unfold field. rewrite lookup_empty, H.
    simpl. lia. }
  split.
  - apply (HS server_app (Some ∅) world_up RName); [reflexivity | |];
      apply (Hname _ (Hshort Server.sanitize eq_refl)).
  - apply (HB brevo_app (Some ∅) world_up RName); [reflexivity | |];
      apply (Hname _ (Hshort Brevo.sanitize eq_refl)).
Defined.

(** C3 as stated fails on the API-capable variant: a body without a name
    is answered "Name is required (min 2 chars).", not the message of the
    specification. *)
Lemma short_name_message_differs :
  Brevo.contact brevo_app (Some ∅) world_up
  = ([], Resolved (validation_error (lit "Name is required (min 2 chars)."))) /\
  Brevo.contact brevo_app (Some ∅) world_up
  ≠ ([], Resolved (validation_error
                     (lit "Name is required and must be at least 2 characters."))).
Proof.
  assert (H : Brevo.contact brevo_app (Some ∅) world_up
              = ([], Resolved (validation_error (lit "Name is required (min 2 chars)."))))
    by (vm_compute; reflexivity).
  split; [exact H|]. rewrite H. intros Heq.
  vm_compute in Heq. discriminate Heq.
Qed.

(** ** The e-mail rule *)

Ltac email_rule_cases Hn He :=
  unfold first_failure, rules, find, rule_fails;
  cbn [read sub_name sub_email sub_subject sub_message sub_source sub_honeypot];
  rewrite (proj2 (Nat.ltb_ge _ _) Hn);
  match goal with
  | |- context [isEmail ?e] => destruct (isEmail e) eqn:He; cbn [negb]
  end;
  [ apply isEmail_basic_address in He;
    let H := fresh "H" in
    split; [intros H; exfalso | intros H; contradiction];
    repeat match type of H with
           | context [if ?c then _ else _] => destruct c
           end;
    first [discriminate H | vm_compute in H; discriminate H]
  | let Hb := fresh "Hb" in
    split; [intros _ Hb; apply isEmail_basic_address in Hb; congruence
           | reflexivity] ].

Lemma server_email_rule (a : Server.app) :
  email_rule Server.sanitize (Server.contact a).
Proof.
  intros b w Hh Hn. rewrite server_contact_cases. cbn [read sub_honeypot].
  rewrite Hh. cbn [nonEmpty truthy length Nat.eqb negb].
  email_rule_cases Hn He.
Qed.

Lemma brevo_email_rule (env : gmap string jsstring) (a : Brevo.app) :
  Brevo.startup env = Listening a ->
  email_rule Brevo.sanitize (Brevo.contact a).
Proof.
  intros Hstart b w Hh Hn. rewrite (brevo_contact_cases env) by assumption.
  cbn [read sub_honeypot]. rewrite Hh. cbn [nonEmpty truthy length Nat.eqb negb].
  email_rule_cases Hn He.
Qed.

Lemma basic_address_sample : basic_address (lit "a@b.co").
Proof. apply isEmail_basic_address. reflexivity. Qed.

(** C4. Past the honeypot and the name rule, both handlers answer 400
    "Invalid email address." exactly when the sanitized e-mail field is not
    of the basic pattern: three non-empty parts [local@domain.tld], a single
    [@], no whitespace.  [isEmail] is true on exactly these strings, among
    them "a@b.co". *)
Theorem email_rule_is_basic_address :
  (forall a : Server.app, email_rule Server.sanitize (Server.contact a)) /\
  (forall env (a : Brevo.app),
     Brevo.startup env = Listening a ->
     email_rule Brevo.sanitize (Brevo.contact a)) /\
  (forall s : jsstring, isEmail (VStr s) = true <-> basic_address s) /\
  basic_address (lit "a@b.co").
Proof.
  split; [exact server_email_rule|].
  split; [exact brevo_email_rule|].
  split; [exact isEmail_basic_address | exact basic_address_sample].
Qed.

Lemma email_rule_is_basic_address_witness :
  Brevo.startup env_brevo = Listening brevo_app /\
  (Server.contact server_app (Some (<["email" := VStr (lit "jane.example.com")]> body_jane)) world_up
   = ([], Resolved (validation_error (lit "Invalid email address."))))
  /\ (Brevo.contact brevo_app (Some (<["email" := VStr (lit "jane.example.com")]> body_jane)) world_up
      = ([], Resolved (validation_error (lit "Invalid email address.")))).
Proof.
  destruct email_rule_is_basic_address as (HS & HB & Hiff & _).
  assert (Hbad : forall sanitize : value -> jsstring,
             sanitize (VStr (lit "jane.example.com")) = lit "jane.example.com" ->
             ~ basic_address
                 (sanitize (field (Some (<["email" := VStr (lit "jane.example.com")]> body_jane))
                                  "email"))).
  { intros sanitize Hs Hb.
    replace (field (Some (<["email" := VStr (lit "jane.example.com")]> body_jane)) "email")
      with (VStr (lit "jane.example.com")) in Hb by (vm_compute; reflexivity).
    rewrite Hs in Hb. apply Hiff in Hb. vm_compute in Hb. discriminate Hb. }
  assert (Hstart : Brevo.startup env_brevo = Listening brevo_app)
    by (vm_compute; reflexivity).
  split; [exact Hstart|]. split.
  - apply (HS server_app); [vm_compute; reflexivity | vm_compute; lia |].
    apply Hbad. vm_compute; reflexivity.
  - apply (HB env_brevo brevo_app Hstart); [vm_compute; reflexivity | vm_compute; lia |].
    apply Hbad. vm_compute; reflexivity.
Defined.

(** ** Delivery *)

Lemma server_contact_valid (a : Server.app) (b : option (gmap string value)) (w : world) :
  let s := read Server.sanitize b in
  let m := outgoing (Server.FROM_EMAIL a) (Server.TO_EMAIL a) s in
  sub_honeypot s = [] -> (forall r, rule_fails s r = false) ->
  Server.contact a b w =
    ([EvSendMail m],
     Resolved match smtp w m with
              | Resolved _ => sent
              | Rejected e => json 500 [("error", VStr (error_text e))]
              end).
Proof.
  intros s m Hh Hv. rewrite server_contact_cases. fold s. rewrite Hh.
  cbn [nonEmpty truthy length Nat.eqb negb].
  now rewrite (proj2 (first_failure_None s) Hv).
Qed.

Lemma brevo_contact_valid (env : gmap string jsstring) (a : Brevo.app)
    (b : option (gmap string value)) (w : world) :
  Brevo.startup env = Listening a ->
  let s := read Brevo.sanitize b in
  let p := outgoing (Brevo.FROM_EMAIL a) (Brevo.TO_EMAIL a) s in
  sub_honeypot s = [] -> (forall r, rule_fails s r = false) ->
  Brevo.contact a b w =
    ([BrevoContract.dispatch a p],
     Resolved (if BrevoContract.delivered a p w then sent
               else json 500 [("error", VStr (lit "Failed to send email. Please try again later."))])).
Proof.
  intros Hstart s p Hh Hv. rewrite (brevo_contact_cases env) by assumption.
  fold s. rewrite Hh. cbn [nonEmpty truthy length Nat.eqb negb].
  now rewrite (proj2 (first_failure_None s) Hv).
Qed.

(** C8. When a submission passes the honeypot and the four rules and the
    backend in use reports a failure, both handlers answer with status 500
    and not with the success response; the record of outside calls holds
    the one dispatch and nothing else, so the send is not tried again. *)
Theorem delivery_failure_gives_500 :
  (forall (a : Server.app) b w,
     let s := read Server.sanitize b in
     let m := outgoing (Server.FROM_EMAIL a) (Server.TO_EMAIL a) s in
     sub_honeypot s = [] -> (forall r, rule_fails s r = false) ->
     smtp_delivered m w = false ->
     exists resp,
       Server.contact a b w = ([EvSendMail m], Resolved resp) /\
       status resp = 500 /\ resp ≠ sent) /\
  (forall env (a : Brevo.app) b w,
     Brevo.startup env = Listening a ->
     let s := read Brevo.sanitize b in
     let p := outgoing (Brevo.FROM_EMAIL a) (Brevo.TO_EMAIL a) s in
     sub_honeypot s = [] -> (forall r, rule_fails s r = false) ->
     BrevoContract.delivered a p w = false ->
     exists resp,
       Brevo.contact a b w = ([BrevoContract.dispatch a p], Resolved resp) /\
       status resp = 500 /\ resp ≠ sent).
Proof.
  split.
  - intros a b w s m Hh Hv Hd. rewrite server_contact_valid by assumption.
    fold s m. unfold smtp_delivered in Hd.
    destruct (smtp w m) as [[]|e]; [discriminate|].
    eexists. split; [reflexivity|]. split; [reflexivity | discriminate].
  - intros env a b w Hstart s p Hh Hv Hd.
    rewrite (brevo_contact_valid env) by assumption. fold s p. rewrite Hd.
    eexists. split; [reflexivity|]. split; [reflexivity | discriminate].
Qed.

Lemma jane_is_valid (sanitize : value -> jsstring) :
  (forall raw, sanitize (VStr raw) = trim raw) -> sanitize VUndefined = [] ->
  read sanitize (Some body_jane)
  = {| sub_name := lit "Jane Doe"; sub_email := lit "jane@example.com";
       sub_subject := lit "Hello"; sub_message := lit "This is a test message.";
       sub_source := []; sub_honeypot := [] |}.
Proof.
  intros Hs Hu. unfold read.
  replace (field (Some body_jane) "name") with (VStr (lit "Jane Doe"))
    by (vm_compute; reflexivity).
  replace (field (Some body_jane) "email") with (VStr (lit "jane@example.com"))
    by (vm_compute; reflexivity).
  replace (field (Some body_jane) "subject") with (VStr (lit "Hello"))
    by (vm_compute; reflexivity).
  replace (field (Some body_jane) "message") with (VStr (lit "This is a test message."))
    by (vm_compute; reflexivity).
  replace (field (Some body_jane) "source") with VUndefined by (vm_compute; reflexivity).
  replace (field (Some body_jane) "website") with VUndefined by (vm_compute; reflexivity).
  rewrite !Hs, Hu. reflexivity.
Qed.

Lemma delivery_failure_gives_500_witness :
  Brevo.startup env_brevo = Listening brevo_app /\
  (exists resp e,
     Server.contact server_app (Some body_jane) world_down = ([e], Resolved resp) /\
     status resp = 500) /\
  (exists resp e,
     Brevo.contact brevo_app (Some body_jane) world_down = ([e], Resolved resp) /\
     status resp = 500).
Proof.
  destruct delivery_failure_gives_500 as [HS HB].
  assert (Hstart : Brevo.startup env_brevo = Listening brevo_app)
    by (vm_compute; reflexivity).
  split; [exact Hstart|]. split.
  - destruct (HS server_app (Some body_jane) world_down) as (resp & Hc & Hst & _).
    + rewrite (jane_is_valid Server.sanitize server_sanitize_string eq_refl). reflexivity.
    + rewrite (jane_is_valid Server.sanitize server_sanitize_string eq_refl).
      intros []; vm_compute; reflexivity.
    + reflexivity.
    + eauto.
  - destruct (HB env_brevo brevo_app (Some body_jane) world_down Hstart)
      as (resp & Hc & Hst & _).
    + rewrite (jane_is_valid Brevo.sanitize brevo_sanitize_string eq_refl). reflexivity.
    + rewrite (jane_is_valid Brevo.sanitize brevo_sanitize_string eq_refl).
      intros []; vm_compute; reflexivity.
    + vm_compute. reflexivity.
    + eauto.
Defined.

Lemma jane_outgoing (sanitize : value -> jsstring) (from to : jsstring) :
  (forall raw, sanitize (VStr raw) = trim raw) -> sanitize VUndefined = [] ->
  outgoing from to (read sanitize (Some body_jane)) = jane_message from to.
Proof.
  intros Hs Hu. rewrite (jane_is_valid sanitize Hs Hu). vm_compute. reflexivity.
Qed.

Lemma jane_request (key : value) (from to : jsstring) :
  Brevo.brevo_request key (jane_message from to) = jane_fetch key from to.
Proof. unfold Brevo.brevo_request, jane_fetch. do 2 f_equal. Qed.

Lemma server_contact_jane (a : Server.app) (w : world) :
  let m := jane_message (Server.FROM_EMAIL a) (Server.TO_EMAIL a) in
  Server.contact a (Some body_jane) w =
    ([EvSendMail m],
     Resolved match smtp w m with
              | Resolved _ => sent
              | Rejected e => json 500 [("error", VStr (error_text e))]
              end).
Proof.
  intros m. rewrite server_contact_valid.
  - now rewrite (jane_outgoing Server.sanitize _ _ server_sanitize_string eq_refl).
  - now rewrite (jane_is_valid Server.sanitize server_sanitize_string eq_refl).
  - rewrite (jane_is_valid Server.sanitize server_sanitize_string eq_refl).
    intros []; vm_compute; reflexivity.
Qed.

Lemma brevo_contact_jane (env : gmap string jsstring) (a : Brevo.app) (w : world) :
  Brevo.startup env = Listening a ->
  let p := jane_message (Brevo.FROM_EMAIL a) (Brevo.TO_EMAIL a) in
  Brevo.contact a (Some body_jane) w =
    ([BrevoContract.dispatch a p],
     Resolved (if BrevoContract.delivered a p w then sent
               else json 500 [("error", VStr (lit "Failed to send email. Please try again later."))])).
Proof.
  intros Hstart p. rewrite (brevo_contact_valid env) by
    (first [assumption
           | rewrite (jane_is_valid Brevo.sanitize brevo_sanitize_string eq_refl);
             first [reflexivity | intros []; vm_compute; reflexivity]]).
  now rewrite (jane_outgoing Brevo.sanitize _ _ brevo_sanitize_string eq_refl).
Qed.

(** C2, amended.  The submission of Jane Doe makes each handler record
    exactly one outside call.  Through SMTP ([server.js], and the
    API-capable variant without a key) it is the [sendMail] of the message
    with [replyTo] "Jane Doe <jane@example.com>", subject
    "[bmDub Contact] Hello", the configured sender and recipient and the
    text of the template.  With an API key it is the one [POST] to the
    Brevo endpoint, whose body carries the subject "[bmDub Contact] Hello",
    the same text, and as reply-to the address "jane@example.com" alone,
    taken out of "Jane Doe <jane@example.com>" by [extractEmail].  When the
    backend in use reports the delivery, the response is 200
    [{ok: true, message: "Email sent successfully."}]. *)
Theorem valid_submission_dispatched_once :
  (forall (a : Server.app) w,
     let m := jane_message (Server.FROM_EMAIL a) (Server.TO_EMAIL a) in
     fst (Server.contact a (Some body_jane) w) = [EvSendMail m] /\
     (smtp w m = Resolved tt ->
      snd (Server.contact a (Some body_jane) w) = Resolved sent)) /\
  (forall env (a : Brevo.app) w,
     Brevo.startup env = Listening a ->
     truthy (Brevo.BREVO_API_KEY a) = false ->
     let m := jane_message (Brevo.FROM_EMAIL a) (Brevo.TO_EMAIL a) in
     fst (Brevo.contact a (Some body_jane) w) = [EvSendMail m] /\
     (smtp w m = Resolved tt ->
      snd (Brevo.contact a (Some body_jane) w) = Resolved sent)) /\
  (forall env (a : Brevo.app) w,
     Brevo.startup env = Listening a ->
     truthy (Brevo.BREVO_API_KEY a) = true ->
     let init := jane_fetch (Brevo.BREVO_API_KEY a) (Brevo.FROM_EMAIL a) (Brevo.TO_EMAIL a) in
     fst (Brevo.contact a (Some body_jane) w) = [EvFetch Brevo.brevo_url init] /\
     (forall resp,
        http w Brevo.brevo_url init = Resolved resp ->
        resp_ok resp = true -> resp_json resp = Resolved tt ->
        snd (Brevo.contact a (Some body_jane) w) = Resolved sent)) /\
  (forall key from to,
     jane_fetch key from to = Brevo.brevo_request key (jane_message from to) /\
     msg_replyTo (jane_message from to) = lit "Jane Doe <jane@example.com>" /\
     msg_subject (jane_message from to) = lit "[bmDub Contact] Hello" /\
     bb_replyTo (fi_body (jane_fetch key from to)) = Some (lit "jane@example.com") /\
     bb_subject (fi_body (jane_fetch key from to)) = lit "[bmDub Contact] Hello") /\
  sent = {| status := 200;
            body := Json [("ok", VBool true);
                          ("message", VStr (lit "Email sent successfully."))];
            rate := None |}.
Proof.
  split; [|split; [|split; [|split; [|reflexivity]]]].
  - intros a w m. rewrite server_contact_jane. fold m. cbn [fst snd].
    split; [reflexivity|]. now intros ->.
  - intros env a w Hstart Hkey m. rewrite (brevo_contact_jane env) by assumption.
    fold m. unfold BrevoContract.dispatch, BrevoContract.delivered. rewrite Hkey.
    cbn [fst snd]. split; [reflexivity|]. now intros ->.
  - intros env a w Hstart Hkey init. rewrite (brevo_contact_jane env) by assumption.
    unfold BrevoContract.dispatch, BrevoContract.delivered. rewrite Hkey, jane_request.
    fold init. cbn [fst snd]. split; [reflexivity|].
    intros resp -> -> ->. reflexivity.
  - intros key from to. rewrite jane_request. repeat split.
Qed.

Lemma valid_submission_dispatched_once_witness :
  Brevo.startup env_brevo = Listening brevo_app /\
  Brevo.startup env_smtp = Listening brevo_smtp_app /\
  Server.contact server_app (Some body_jane) world_up
  = ([EvSendMail (jane_message (lit "bmDub Contact <no-reply@bmdub.app>")
                    (lit "cmwingo@email.sc.edu"))], Resolved sent) /\
  Brevo.contact brevo_smtp_app (Some body_jane) world_up
  = ([EvSendMail (jane_message (lit "bmDub Contact <cwingo64@gmail.com>")
                    (lit "cmwingo@email.sc.edu"))], Resolved sent) /\
  Brevo.contact brevo_app (Some body_jane) world_up
  = ([EvFetch Brevo.brevo_url
        (jane_fetch (VStr (lit "xkeysib-1")) (lit "bmDub Contact <cwingo64@gmail.com>")
           (lit "cmwingo@email.sc.edu"))], Resolved sent).
Proof.
  destruct valid_submission_dispatched_once as (HS & HM & HA & _).
  assert (Hapi : Brevo.startup env_brevo = Listening brevo_app)
    by (vm_compute; reflexivity).
  assert (Hsmtp : Brevo.startup env_smtp = Listening brevo_smtp_app)
    by (vm_compute; reflexivity).
  split; [exact Hapi|]. split; [exact Hsmtp|]. split; [|split].
  - destruct (HS server_app world_up) as [Ht Hok].
    rewrite (surjective_pairing (Server.contact server_app (Some body_jane) world_up)).
    rewrite Ht, (Hok eq_refl). reflexivity.
  - destruct (HM env_smtp brevo_smtp_app world_up Hsmtp eq_refl) as [Ht Hok].
    rewrite (surjective_pairing (Brevo.contact brevo_smtp_app (Some body_jane) world_up)).
    rewrite Ht, (Hok eq_refl). reflexivity.
  - destruct (HA env_brevo brevo_app world_up Hapi eq_refl) as [Ht Hok].
    rewrite (surjective_pairing (Brevo.contact brevo_app (Some body_jane) world_up)).
    rewrite Ht, (Hok _ eq_refl eq_refl eq_refl). reflexivity.
Defined.

(** C2 as stated fails with an API key: the one dispatch is the request to
    Brevo, and its reply-to is "jane@example.com", not
    "Jane Doe <jane@example.com>". *)
Lemma api_dispatch_carries_address_only :
  Brevo.startup env_brevo = Listening brevo_app /\
  exists init,
    Brevo.contact brevo_app (Some body_jane) world_up
    = ([EvFetch Brevo.brevo_url init], Resolved sent) /\
    bb_replyTo (fi_body init) = Some (lit "jane@example.com") /\
    bb_replyTo (fi_body init) ≠ Some (lit "Jane Doe <jane@example.com>").
Proof.
  split; [vm_compute; reflexivity|].
  eexists. split; [vm_compute; reflexivity|].
  split; [reflexivity | discriminate].
Qed.

(** ** Addresses handed to the two backends *)

Lemma sendViaBrevoAPI_calls (key : value) (p : message) (w : world) :
  fst (Brevo.sendViaBrevoAPI key p w) = [EvFetch Brevo.brevo_url (Brevo.brevo_request key p)].
Proof.
  unfold Brevo.sendViaBrevoAPI, bind, fetch, throw, await.
  destruct (http w _ _) as [resp|e]; [|reflexivity].
  destruct (negb (resp_ok resp)); reflexivity.
Qed.

Lemma display_form_nonEmpty (display addr : jsstring) :
  nonEmpty (display_form display addr) = true.
Proof. unfold display_form. destruct display; reflexivity. Qed.

(** X18. For an address field in display form [Display Name <addr>] whose
    name is free of [<] and whose address is non-empty and free of [>],
    [extractEmail] gives [addr], and the request [sendViaBrevoAPI] issues
    carries [addr] alone as sender, recipient or reply-to; a field free of
    [<] and of [>] goes through unchanged.  A handler that sends through
    SMTP passes the fields of the message to [sendMail] as they are, in
    display form. *)
Theorem api_backend_gets_bracketed_address (display addr : jsstring) :
  c_lt ∉ display -> addr ≠ [] -> c_gt ∉ addr ->
  Brevo.extractEmail (display_form display addr) = addr /\
  (forall key p w,
     let init := Brevo.brevo_request key p in
     fst (Brevo.sendViaBrevoAPI key p w) = [EvFetch Brevo.brevo_url init] /\
     (msg_from p = display_form display addr -> bb_sender (fi_body init) = addr) /\
     (msg_to p = display_form display addr -> bb_to (fi_body init) = [addr]) /\
     (msg_replyTo p = display_form display addr ->
      bb_replyTo (fi_body init) = Some addr)) /\
  (forall plain key p,
     c_lt ∉ plain -> c_gt ∉ plain ->
     Brevo.extractEmail plain = plain /\
     (msg_from p = plain -> bb_sender (fi_body (Brevo.brevo_request key p)) = plain) /\
     (msg_to p = plain -> bb_to (fi_body (Brevo.brevo_request key p)) = [plain]) /\
     (msg_replyTo p = plain -> plain ≠ [] ->
      bb_replyTo (fi_body (Brevo.brevo_request key p)) = Some plain)) /\
  (forall env (a : Brevo.app) b w,
     Brevo.startup env = Listening a ->
     let s := read Brevo.sanitize b in
     let p := outgoing (Brevo.FROM_EMAIL a) (Brevo.TO_EMAIL a) s in
     sub_honeypot s = [] -> (forall r, rule_fails s r = false) ->
     msg_replyTo p = display_form (sub_name s) (sub_email s) /\
     fst (Brevo.contact a b w)
     = [if truthy (Brevo.BREVO_API_KEY a)
        then EvFetch Brevo.brevo_url (Brevo.brevo_request (Brevo.BREVO_API_KEY a) p)
        else EvSendMail p]) /\
  (forall (a : Server.app) b w,
     let s := read Server.sanitize b in
     let m := outgoing (Server.FROM_EMAIL a) (Server.TO_EMAIL a) s in
     sub_honeypot s = [] -> (forall r, rule_fails s r = false) ->
     msg_replyTo m = display_form (sub_name s) (sub_email s) /\
     fst (Server.contact a b w) = [EvSendMail m]).
Proof.
  intros Hd Hne Ha.
  pose proof (extractEmail_display display addr Hd Hne Ha) as Hx.
  split; [exact Hx|]. split; [|split; [|split]].
  - intros key p w init. split; [apply sendViaBrevoAPI_calls|].
    subst init. cbn [Brevo.brevo_request fi_body bb_sender bb_to bb_replyTo].
    split; [intros ->; exact Hx|]. split; [intros ->; now rewrite Hx|].
    intros ->. now rewrite display_form_nonEmpty, Hx.
  - intros plain key p Hlt Hgt.
    pose proof (extractEmail_plain plain Hlt) as Hp.
    split; [exact Hp|].
    cbn [Brevo.brevo_request fi_body bb_sender bb_to bb_replyTo].
    split; [intros ->; now rewrite Hp|]. split; [intros ->; now rewrite Hp|].
    intros -> Hne'. apply nonEmpty_true in Hne'. now rewrite Hne', Hp.
  - intros env a b w Hstart s p Hh Hv. split; [reflexivity|].
    rewrite (brevo_contact_valid env) by assumption. reflexivity.
  - intros a b w s m Hh Hv. split; [reflexivity|].
    rewrite server_contact_valid by assumption. reflexivity.
Qed.

Lemma api_backend_gets_bracketed_address_witness :
  ((c_lt ∉ lit "bmDub Contact") /\ lit "cwingo64@gmail.com" ≠ [] /\
   (c_gt ∉ lit "cwingo64@gmail.com")) /\
  Brevo.extractEmail (lit "bmDub Contact <cwingo64@gmail.com>") = lit "cwingo64@gmail.com".
Proof.
  assert (H1 : c_lt ∉ lit "bmDub Contact")
    by (apply (bool_decide_unpack _); vm_compute; exact I).
  assert (H2 : lit "cwingo64@gmail.com" ≠ []) by (vm_compute; discriminate).
  assert (H3 : c_gt ∉ lit "cwingo64@gmail.com")
    by (apply (bool_decide_unpack _); vm_compute; exact I).
  split; [auto|].
  apply (api_backend_gets_bracketed_address (lit "bmDub Contact")
           (lit "cwingo64@gmail.com") H1 H2 H3).
Defined.

(** C5. The reply-to of the message is built by the handler as
    "name <email>" from the validated fields, and the validation lets a
    [<] into the name and a [>] into the e-mail.  For the name "I <3 cats"
    the field is "I <3 cats <jane@example.com>", and for the e-mail
    "a>b@c.de" it is "Jane Doe <a>b@c.de>"; both submissions pass the
    checks.  Through SMTP [sendMail] receives these fields as they are, but
    the request to the API carries "3 cats <jane@example.com" in the first
    case and "a" in the second, neither of which is the bracketed
    address. *)
Theorem api_reply_to_not_the_bracketed_address :
  Brevo.startup env_brevo = Listening brevo_app /\
  Brevo.startup env_smtp = Listening brevo_smtp_app /\
  (forall r, rule_fails (read Brevo.sanitize (Some body_heart)) r = false) /\
  (forall r, rule_fails (read Brevo.sanitize (Some body_gt)) r = false) /\
  (exists m,
     fst (Brevo.contact brevo_smtp_app (Some body_heart) world_up) = [EvSendMail m] /\
     msg_replyTo m = display_form (lit "I <3 cats") (lit "jane@example.com")) /\
  (exists init,
     fst (Brevo.contact brevo_app (Some body_heart) world_up)
     = [EvFetch Brevo.brevo_url init] /\
     bb_replyTo (fi_body init) = Some (lit "3 cats <jane@example.com") /\
     bb_replyTo (fi_body init) ≠ Some (lit "jane@example.com")) /\
  (exists m,
     fst (Brevo.contact brevo_smtp_app (Some body_gt) world_up) = [EvSendMail m] /\
     msg_replyTo m = display_form (lit "Jane Doe") (lit "a>b@c.de")) /\
  (exists init,
     fst (Brevo.contact brevo_app (Some body_gt) world_up)
     = [EvFetch Brevo.brevo_url init] /\
     bb_replyTo (fi_body init) = Some (lit "a") /\
     bb_replyTo (fi_body init) ≠ Some (lit "a>b@c.de")).
Proof.
  split; [vm_compute; reflexivity|]. split; [vm_compute; reflexivity|].
  split; [intros []; vm_compute; reflexivity|].
  split; [intros []; vm_compute; reflexivity|].
  split; [|split; [|split]].
  - eexists. split; [vm_compute; reflexivity | vm_compute; reflexivity].
  - eexists. split; [vm_compute; reflexivity|].
    split; [reflexivity | vm_compute; discriminate].
  - eexists. split; [vm_compute; reflexivity | vm_compute; reflexivity].
  - eexists. split; [vm_compute; reflexivity|].
    split; [reflexivity | vm_compute; discriminate].
Qed.

(** ** Start-up *)






(** ** CORS gate *)

Lemma origin_callback_accepts (origins : list jsstring) (origin : option jsstring) :
  origin_callback origins origin = Resolved true <->
  origin = None \/ origin = Some [] \/ exists o, origin = Some o /\ o ∈ origins.
Proof.
  unfold origin_callback, includes. destruct origin as [o|]; cbv zeta.
  - change (truthy (VStr o)) with (nonEmpty o). change (ToString (VStr o)) with o.
    destruct (nonEmpty o) eqn:Ho; cbn [negb orb].
    + destruct (bool_decide_reflect (o ∈ origins)) as [Hin|Hout].
      * split; [eauto 6 | reflexivity].
      * split; [discriminate|]. intros [H|[H|(o' & [= <-] & H)]]; try discriminate.
        -- injection H as ->. discriminate.
        -- contradiction.
    + apply nonEmpty_nil in Ho as ->. split; [auto | reflexivity].
  - split; [auto | reflexivity].
Qed.

Lemma origin_callback_decides (origins : list jsstring) (origin : option jsstring) :
  origin_callback origins origin = Resolved true \/
  origin_callback origins origin = Rejected (mkError (lit "Not allowed by CORS")).
Proof. unfold origin_callback. destruct (_ || _); auto. Qed.

Lemma chain_rejected (origins : list jsstring) (routes : request -> io response)
    (st : gmap jsstring window) (req : request) (w : world) :
  origin_callback origins (req_origin req) ≠ Resolved true ->
  chain origins routes st req w
  = (st, [], json 500 [("error", VStr (lit "Internal server error."))]).
Proof.
  intros H. unfold chain.
  destruct (origin_callback_decides origins (req_origin req)) as [Hok|Hko];
    [contradiction|]. now rewrite Hko.
Qed.

(** C7, amended.  The CORS gate lets a request in exactly when it has no
    [Origin] header, an empty one, or one that is, code unit for code unit,
    an entry of the allow-list.  Any other request is turned away before
    the limiter and the routes: the store of the limiter is untouched, no
    outside call is made, and the final error handler answers with status
    500 and the JSON body [{error: "Internal server error."}]. *)
Theorem cors_gate_decision (origins : list jsstring) :
  (forall origin,
     origin_callback origins origin = Resolved true <->
     origin = None \/ origin = Some [] \/ exists o, origin = Some o /\ o ∈ origins) /\
  (forall routes st req w,
     origin_callback origins (req_origin req) ≠ Resolved true ->
     chain origins routes st req w
     = (st, [], {| status := 500;
                   body := Json [("error", VStr (lit "Internal server error."))];
                   rate := None |})).
Proof.
  split; [apply origin_callback_accepts | apply chain_rejected].
Qed.

Lemma cors_gate_decision_witness :
  origin_callback (Server.origins server_app) (req_origin request_evil) ≠ Resolved true /\
  Server.serve server_app ∅ request_evil world_up
  = (∅, [], json 500 [("error", VStr (lit "Internal server error."))]).
Proof.
  assert (H : origin_callback (Server.origins server_app) (req_origin request_evil)
              ≠ Resolved true) by (vm_compute; discriminate).
  split; [exact H|].
  apply (cors_gate_decision (Server.origins server_app)). exact H.
Defined.

(** C7 as stated fails twice: the rejection of a foreign origin is a JSON
    body, and an [Origin] header that is present but empty is let in
    although it matches no entry. *)
Lemma cors_rejection_is_json :
  (exists fields,
     body (snd (Server.serve server_app ∅ request_evil world_up)) = Json fields) /\
  origin_callback (Server.origins server_app) (Some []) = Resolved true /\
  [] ∉ Server.origins server_app.
Proof.
  split; [eexists; vm_compute; reflexivity|].
  split; [reflexivity|].
  apply (bool_decide_unpack _). vm_compute. exact I.
Qed.

(** ** Rate limiter *)




















(** ** Sanitizing comes first *)

Lemma long_message_inj (r r' : rule) : long_message r = long_message r' -> r = r'.
Proof. destruct r, r'; intros H; try reflexivity; vm_compute in H; discriminate H. Qed.

Lemma short_message_inj (r r' : rule) : short_message r = short_message r' -> r = r'.
Proof. destruct r, r'; intros H; try reflexivity; vm_compute in H; discriminate H. Qed.

Section SanitizedFirst.

Variable sanitize : value -> jsstring.
Variable msg : rule -> jsstring.
Variable h : handler.

Hypothesis sanitize_string : forall raw, sanitize (VStr raw) = trim raw.
Hypothesis through_sanitize :
  forall b1 b2 w, read sanitize b1 = read sanitize b2 -> h b1 w = h b2 w.
Hypothesis msg_inj : forall r r', msg r = msg r' -> r = r'.
Hypothesis cases :
  forall b w,
    sanitize (field b "website") = [] ->
    match first_failure (read sanitize b) with
    | Some r => h b w = ([], Resolved (validation_error (msg r)))
    | None => exists e resp, h b w = ([e], Resolved resp) /\ resp ≠ skipped
    end.

Lemma rule_answers (b : option (gmap string value)) (w : world) (r0 : rule) :
  sanitize (field b "website") = [] ->
  (forall r', (rank r' < rank r0)%nat -> rule_fails (read sanitize b) r' = false) ->
  h b w = ([], Resolved (validation_error (msg r0)))
  <-> rule_fails (read sanitize b) r0 = true.
Proof using cases msg_inj.
  intros Hh Hlow. pose proof (cases b w Hh) as Hc. split.
  - intros Hr. destruct (first_failure (read sanitize b)) as [r|] eqn:Hf.
    + rewrite Hc in Hr. injection Hr as Hr. apply msg_inj in Hr as ->.
      now apply first_failure_ranked in Hf.
    + destruct Hc as (e & resp & Hc & _). rewrite Hc in Hr. discriminate Hr.
  - intros Hr.
    now rewrite (proj2 (first_failure_ranked _ r0) (conj Hr Hlow)) in Hc.
Qed.

Lemma sanitized_first_holds : sanitized_first sanitize msg h.
Proof using All.
  split; [exact sanitize_string|]. split; [exact through_sanitize|].
  split; [|split; [|split]].
  - intros b w ws Hw Hall. rewrite Hw, sanitize_string, (trim_whitespace ws Hall).
    split; [reflexivity|].
    assert (Hh : sanitize (field b "website") = [])
      by now rewrite Hw, sanitize_string, (trim_whitespace ws Hall).
    pose proof (cases b w Hh) as Hc.
    destruct (first_failure (read sanitize b)).
    + rewrite Hc. discriminate.
    + destruct Hc as (e & resp & -> & Hne). cbn [snd]. congruence.
  - intros b w raw Hh Hn. rewrite (rule_answers b w RName Hh).
    + cbn [rule_fails read sub_name]. rewrite Hn, sanitize_string. apply Nat.ltb_lt.
    + intros r' Hr'. simpl in Hr'. lia.
  - intros b w raw Hh H1 H2 Hs. rewrite (rule_answers b w RSubject Hh).
    + cbn [rule_fails read sub_subject]. rewrite Hs, sanitize_string. apply Nat.ltb_lt.
    + intros [] Hr'; simpl in Hr'; first [assumption | lia].
  - intros b w raw Hh H1 H2 H3 Hm. rewrite (rule_answers b w RMessage Hh).
    + cbn [rule_fails read sub_message]. rewrite Hm, sanitize_string. apply Nat.ltb_lt.
    + intros [] Hr'; simpl in Hr'; first [assumption | lia].
Qed.

End SanitizedFirst.

Lemma server_sanitized_first (a : Server.app) :
  sanitized_first Server.sanitize long_message (Server.contact a).
Proof.
  apply sanitized_first_holds.
  - exact server_sanitize_string.
  - intros b1 b2 w H. rewrite !server_contact_cases. now rewrite H.
  - exact long_message_inj.
  - intros b w Hh. pose proof (server_contact_cases a b w) as Hc.
    cbv zeta in Hc. cbn [read sub_honeypot] in Hc. rewrite Hh in Hc.
    cbn [nonEmpty truthy length Nat.eqb negb] in Hc.
    destruct (first_failure (read Server.sanitize b)); [exact Hc|].
    eexists. eexists. split; [exact Hc|]. destruct (smtp w _); discriminate.
Qed.

Lemma brevo_sanitized_first (env : gmap string jsstring) (a : Brevo.app) :
  Brevo.startup env = Listening a ->
  sanitized_first Brevo.sanitize short_message (Brevo.contact a).
Proof.
  intros Hstart. apply sanitized_first_holds.
  - exact brevo_sanitize_string.
  - intros b1 b2 w H. rewrite !(brevo_contact_cases env) by assumption. now rewrite H.
  - exact short_message_inj.
  - intros b w Hh. pose proof (brevo_contact_cases env a b w Hstart) as Hc.
    cbv zeta in Hc. cbn [read sub_honeypot] in Hc. rewrite Hh in Hc.
    cbn [nonEmpty truthy length Nat.eqb negb] in Hc.
    destruct (first_failure (read Brevo.sanitize b)); [exact Hc|].
    eexists. eexists. split; [exact Hc|].
    destruct (BrevoContract.delivered a _ w); discriminate.
Qed.

(** C10.  Both handlers see the body through their sanitizer only, which
    on a string is [trim]: two bodies with the same sanitized fields get
    the same answer.  So a [website] made of whitespace sanitizes to the
    empty string and the silent success is not the answer, and the name,
    subject and message rules compare the length of the trimmed string
    (with 2, 2 and 10). *)
Theorem fields_sanitized_before_checks :
  (forall a : Server.app,
     sanitized_first Server.sanitize long_message (Server.contact a)) /\
  (forall env (a : Brevo.app),
     Brevo.startup env = Listening a ->
     sanitized_first Brevo.sanitize short_message (Brevo.contact a)).
Proof.
  split; [exact server_sanitized_first | exact brevo_sanitized_first].
Qed.

Lemma fields_sanitized_before_checks_witness :
  Brevo.startup env_brevo = Listening brevo_app /\
  Server.contact server_app (Some body_padded) world_up
  = ([], Resolved (validation_error
                     (lit "Name is required and must be at least 2 characters."))) /\
  Brevo.contact brevo_app (Some body_padded) world_up
  = ([], Resolved (validation_error (lit "Name is required (min 2 chars)."))).
Proof.
  destruct fields_sanitized_before_checks as [HS HB].
  assert (Hstart : Brevo.startup env_brevo = Listening brevo_app)
    by (vm_compute; reflexivity).
  assert (Hw : field (Some body_padded) "website" = VStr (lit "   "))
    by (vm_compute; reflexivity).
  assert (Hn : field (Some body_padded) "name" = VStr (lit "  a  "))
    by (vm_compute; reflexivity).
  assert (Hblank : Forall (fun c => isWhiteSpace c = true) (lit "   "))
    by (repeat constructor).
  assert (Hlen : (length (trim (lit "  a  ")) < 2)%nat) by (vm_compute; lia).
  split; [exact Hstart|]. split.
  - destruct (HS server_app) as (_ & _ & Hblanks & Hname & _).
    destruct (Hblanks (Some body_padded) world_up _ Hw Hblank) as [Hh _].
    apply (Hname (Some body_padded) world_up _ Hh Hn). exact Hlen.
  - destruct (HB env_brevo brevo_app Hstart) as (_ & _ & Hblanks & Hname & _).
    destruct (Hblanks (Some body_padded) world_up _ Hw Hblank) as [Hh _].
    apply (Hname (Some body_padded) world_up _ Hh Hn). exact Hlen.
Defined.

(** * Further properties of the code *)

(** ** [trim] and the sanitizers *)

Lemma trimStart_split (s : jsstring) :
  exists pre, s = pre ++ trimStart s /\ Forall (fun c => isWhiteSpace c = true) pre.
Proof.
  induction s as [|c s (pre & Hs & Hpre)]; simpl.
  - exists []. split; [reflexivity | constructor].
  - destruct (isWhiteSpace c) eqn:Hc.
    + exists (c :: pre). split; [simpl; now rewrite <- Hs | now constructor].
    + exists []. split; [reflexivity | constructor].
Qed.

Lemma trimStart_head (s : jsstring) (c : N) :
  head (trimStart s) = Some c -> isWhiteSpace c = false.
Proof.
  induction s as [|d s IH]; simpl; [discriminate|].
  destruct (isWhiteSpace d) eqn:Hd; [exact IH|].
  simpl. now intros [= <-].
Qed.

Lemma trimStart_clean (s : jsstring) :
  (forall c, head s = Some c -> isWhiteSpace c = false) -> trimStart s = s.
Proof.
  destruct s as [|d s]; simpl; [reflexivity|].
  intros H. now rewrite (H d eq_refl).
Qed.

Lemma head_rev (s : jsstring) : head (rev s) = last s.
Proof.
  induction s as [|c s IH] using rev_ind; [reflexivity|].
  now rewrite rev_app_distr, last_snoc.
Qed.

Lemma trimEnd_split (s : jsstring) :
  exists post, s = trimEnd s ++ post /\ Forall (fun c => isWhiteSpace c = true) post.
Proof.
  unfold trimEnd. destruct (trimStart_split (rev s)) as (pre & Hs & Hpre).
  exists (rev pre). split.
  - rewrite <- rev_app_distr, <- Hs. now rewrite rev_involutive.
  - apply Forall_forall. intros c Hc. rewrite Forall_forall in Hpre.
    apply Hpre. apply list_elem_of_In. apply in_rev, list_elem_of_In, Hc.
Qed.

Lemma trimEnd_last (s : jsstring) (c : N) :
  last (trimEnd s) = Some c -> isWhiteSpace c = false.
Proof.
  unfold trimEnd. rewrite <- head_rev, rev_involutive. apply trimStart_head.
Qed.

Lemma trimEnd_clean (s : jsstring) :
  (forall c, last s = Some c -> isWhiteSpace c = false) -> trimEnd s = s.
Proof.
  intros H. unfold trimEnd. rewrite trimStart_clean.
  - apply rev_involutive.
  - intros c Hc. apply H. now rewrite <- head_rev.
Qed.

Lemma head_prefix (x y : jsstring) (c : N) :
  head x = Some c -> head (x ++ y) = Some c.
Proof. destruct x; [discriminate | exact id]. Qed.

Lemma last_suffix (x y : jsstring) (c : N) :
  last y = Some c -> last (x ++ y) = Some c.
Proof.
  intros H. destruct y as [|d y] using rev_ind; [discriminate|].
  rewrite last_snoc in H. rewrite app_assoc, last_snoc. exact H.
Qed.

Lemma trim_edges (s : jsstring) : edge_clean (trim s).
Proof.
  unfold trim. split.
  - intros c Hc. destruct (trimEnd_split (trimStart s)) as (post & Hs & _).
    apply (trimStart_head s). rewrite Hs. now apply head_prefix.
  - apply trimEnd_last.
Qed.

Lemma trim_clean (s : jsstring) : edge_clean s -> trim s = s.
Proof.
  intros [Hh Hl]. unfold trim. rewrite (trimStart_clean s Hh). now apply trimEnd_clean.
Qed.

Lemma trim_split (s : jsstring) :
  exists pre post,
    s = pre ++ trim s ++ post /\
    Forall (fun c => isWhiteSpace c = true) pre /\
    Forall (fun c => isWhiteSpace c = true) post.
Proof.
  destruct (trimStart_split s) as (pre & Hs & Hpre).
  destruct (trimEnd_split (trimStart s)) as (post & Ht & Hpost).
  exists pre, post. unfold trim. rewrite <- Ht. auto.
Qed.

Lemma trim_idempotent (s : jsstring) : trim (trim s) = trim s.
Proof. apply trim_clean, trim_edges. Qed.

Lemma server_sanitize_trimmed (v : value) :
  exists s, Server.sanitize v = trim s.
Proof. unfold Server.sanitize. eauto. Qed.

Lemma brevo_sanitize_trimmed (v : value) :
  exists s, Brevo.sanitize v = trim s.
Proof. unfold Brevo.sanitize. eauto. Qed.

(** X1. On a string both sanitizers remove the whitespace around it and
    nothing else: the string is its sanitized form between two runs of
    whitespace units, and the sanitized form neither starts nor ends with
    one. *)
Theorem sanitize_strips_surrounding_whitespace (raw : jsstring) :
  (exists pre post,
     raw = pre ++ Server.sanitize (VStr raw) ++ post /\
     Forall (fun c => isWhiteSpace c = true) pre /\
     Forall (fun c => isWhiteSpace c = true) post) /\
  edge_clean (Server.sanitize (VStr raw)) /\
  Brevo.sanitize (VStr raw) = Server.sanitize (VStr raw) /\
  Early.sanitize (VStr raw) = Server.sanitize (VStr raw).
Proof.
  rewrite server_sanitize_string. split; [apply trim_split|].
  split; [apply trim_edges|]. split; [reflexivity|].
  apply server_sanitize_string.
Qed.

(** X2. Sanitizing is idempotent: whatever the value of a field, its
    sanitized form is left as it is by the sanitizer of either file, and
    has no whitespace at its ends. *)
Theorem sanitize_idempotent (v : value) :
  Server.sanitize (VStr (Server.sanitize v)) = Server.sanitize v /\
  Brevo.sanitize (VStr (Brevo.sanitize v)) = Brevo.sanitize v /\
  edge_clean (Server.sanitize v) /\ edge_clean (Brevo.sanitize v).
Proof.
  destruct (server_sanitize_trimmed v) as [s1 ->].
  destruct (brevo_sanitize_trimmed v) as [s2 ->].
  rewrite server_sanitize_string, brevo_sanitize_string, !trim_idempotent.
  repeat split; apply trim_edges.
Qed.

Lemma server_contact_not_skipped (a : Server.app) (b : option (gmap string value))
    (w : world) :
  Server.sanitize (field b "website") = [] ->
  snd (Server.contact a b w) ≠ Resolved skipped.
Proof.
  intros Hh. rewrite server_contact_cases. cbn [read sub_honeypot]. rewrite Hh.
  cbn [nonEmpty truthy length Nat.eqb negb].
  destruct (first_failure _); [discriminate|]. cbn [snd].
  destruct (smtp w _); discriminate.
Qed.

(** X3. The two sanitizers agree on strings, on absent fields, on [null]
    and on [true]; they part on [false], which [s || ''] turns into the
    empty string and [s ?? ''] into "false".  So a body whose [website] is
    [false] is a honeypot hit for the API-capable variant and none for
    [server.js]. *)
Theorem sanitizers_part_on_false :
  (forall raw, Server.sanitize (VStr raw) = Brevo.sanitize (VStr raw)) /\
  Server.sanitize VUndefined = [] /\ Brevo.sanitize VUndefined = [] /\
  Server.sanitize VNull = [] /\ Brevo.sanitize VNull = [] /\
  Server.sanitize (VBool true) = Brevo.sanitize (VBool true) /\
  Server.sanitize (VBool false) = [] /\
  Brevo.sanitize (VBool false) = lit "false" /\
  (forall (aS : Server.app) (aB : Brevo.app) b w,
     field b "website" = VBool false ->
     Brevo.contact aB b w = ([], Resolved skipped) /\
     snd (Server.contact aS b w) ≠ Resolved skipped).
Proof.
  split; [intros raw; now rewrite server_sanitize_string|].
  do 7 (split; [reflexivity|]).
  intros aS aB b w Hw. split.
  - apply brevo_honeypot_first. rewrite Hw. discriminate.
  - apply server_contact_not_skipped. now rewrite Hw.
Qed.

Lemma sanitizers_part_on_false_witness :
  field (Some (<["website" := VBool false]> body_jane)) "website" = VBool false /\
  Brevo.contact brevo_app (Some (<["website" := VBool false]> body_jane)) world_up
  = ([], Resolved skipped).
Proof.
  assert (H : field (Some (<["website" := VBool false]> body_jane)) "website" = VBool false)
    by (vm_compute; reflexivity).
  split; [exact H|].
  destruct sanitizers_part_on_false as (_ & _ & _ & _ & _ & _ & _ & _ & Hc).
  apply (Hc server_app brevo_app _ world_up H).
Defined.

Lemma basic_address_length (s : jsstring) : basic_address s -> (5 <= length s)%nat.
Proof.
  intros (_ & l & d & t & -> & Hl & Hd & Ht & _).
  rewrite !length_app. cbn [length].
  destruct l; [done|]. destruct d; [done|]. destruct t; [done|]. cbn [length]. lia.
Qed.

(** X4. [isEmail] is false on an absent field, on [null], on both booleans
    and on the empty string; a string it accepts has at least five code
    units, none of them whitespace, and is left unchanged by [trim]. *)
Theorem isEmail_rejects_absent_and_blank :
  isEmail VUndefined = false /\ isEmail VNull = false /\
  isEmail (VBool true) = false /\ isEmail (VBool false) = false /\
  isEmail (VStr []) = false /\
  forall s,
    isEmail (VStr s) = true ->
    (5 <= length s)%nat /\ (forall c, c ∈ s -> isWhiteSpace c = false) /\ trim s = s.
Proof.
  do 5 (split; [reflexivity|]).
  intros s H. apply isEmail_basic_address in H.
  split; [now apply basic_address_length|].
  destruct H as [Hws _]. split; [exact Hws|].
  apply trim_clean. split; intros c Hc; apply Hws.
  - destruct s; [discriminate|]. injection Hc as ->. apply elem_of_cons. now left.
  - destruct s as [|d s _] using rev_ind; [discriminate|].
    rewrite last_snoc in Hc. injection Hc as ->.
    apply elem_of_app. right. apply list_elem_of_singleton. reflexivity.
Qed.

Lemma isEmail_rejects_absent_and_blank_witness :
  isEmail (VStr (lit "a@b.c")) = true /\
  (5 <= length (lit "a@b.c"))%nat /\ trim (lit "a@b.c") = lit "a@b.c".
Proof.
  assert (H : isEmail (VStr (lit "a@b.c")) = true) by reflexivity.
  split; [exact H|].
  destruct isEmail_rejects_absent_and_blank as (_ & _ & _ & _ & _ & Hs).
  destruct (Hs _ H) as (Hlen & _ & Htrim). split; [exact Hlen | exact Htrim].
Defined.

(** ** [extractEmail], in full *)

Lemma plus_loop_result (a : atom) (k : list N -> capture -> option capture)
    (s : jsstring) (g g' : capture) :
  plus_loop a k s g = Some g' ->
  exists p q : jsstring,
    p ≠ [] /\ s = p ++ q /\ Forall (fun c => atom_matches a c = true) p /\
    k q (pushes p g) = Some g'.
Proof.
  revert g. induction s as [|c s IH]; intros g; simpl; [discriminate|].
  destruct (atom_matches a c) eqn:Hc; [|discriminate].
  destruct (plus_loop a k s (push c g)) as [g1|] eqn:Hrec.
  - intros [= <-]. destruct (IH _ Hrec) as (p & q & _ & -> & Hall & Hk).
    exists (c :: p), q. split; [done|]. split; [reflexivity|].
    split; [now constructor | exact Hk].
  - intros Hk. exists [c], s. split; [done|]. split; [reflexivity|].
    split; [repeat constructor; exact Hc | exact Hk].
Qed.

Lemma match_bracket_result (s : jsstring) (bol : bool) (g : capture) :
  match_here re_bracket bol s Unset = Some g ->
  exists t post, s = c_lt :: t ++ c_gt :: post /\ t ≠ [] /\ (c_gt ∉ t) /\ g = Closed t.
Proof.
  unfold re_bracket. destruct s as [|c s]; [discriminate|].
  cbn [match_here atom_matches]. destruct (N.eqb_spec c c_lt) as [->|]; [|discriminate].
  intros H.
  change (plus_loop (Class true [ItemChar c_gt])
            (match_here [GroupClose; One (Lit c_gt)] false) s (Opened []) = Some g) in H.
  apply plus_loop_result in H as (t & q & Ht & -> & Hall & Hk).
  rewrite pushes_Opened in Hk. cbn [app match_here] in Hk.
  destruct q as [|d post]; [discriminate|]. cbn [atom_matches] in Hk.
  destruct (N.eqb_spec d c_gt) as [->|]; [|discriminate].
  injection Hk as <-. exists t, post. split; [reflexivity|]. split; [exact Ht|].
  split; [|reflexivity].
  intros Hin. rewrite Forall_forall in Hall.
  now apply Hall, bracket_class_matches in Hin.
Qed.

Lemma search_bracket_result (s : jsstring) (bol : bool) (g : capture) :
  search re_bracket bol s = Some g ->
  exists pre t post,
    s = pre ++ c_lt :: t ++ c_gt :: post /\ t ≠ [] /\ (c_gt ∉ t) /\ g = Closed t.
Proof.
  revert bol. induction s as [|c s IH]; intros bol; cbn [search].
  - destruct (match_here re_bracket bol [] Unset) eqn:Hm; [|discriminate].
    intros [= <-]. apply match_bracket_result in Hm as (t & post & Hs & _). discriminate.
  - destruct (match_here re_bracket bol (c :: s) Unset) as [g1|] eqn:Hm.
    + intros [= <-]. apply match_bracket_result in Hm as (t & post & Hs & Ht & Hgt & ->).
      exists [], t, post. auto.
    + intros H. apply IH in H as (pre & t & post & -> & Ht & Hgt & ->).
      exists (c :: pre), t, post. auto.
Qed.

Lemma extractEmail_cases (v : jsstring) :
  Brevo.extractEmail v = v \/
  exists pre post,
    v = pre ++ c_lt :: Brevo.extractEmail v ++ c_gt :: post /\
    Brevo.extractEmail v ≠ [] /\ c_gt ∉ Brevo.extractEmail v.
Proof.
  unfold Brevo.extractEmail, exec.
  destruct (search re_bracket true v) as [g|] eqn:Hs; [|now left].
  apply search_bracket_result in Hs as (pre & t & post & Hv & Ht & Hgt & ->).
  apply nonEmpty_true in Ht as Hne. rewrite Hne. right. exists pre, post. auto.
Qed.

Lemma extractEmail_no_gt (v : jsstring) : c_gt ∉ v -> Brevo.extractEmail v = v.
Proof.
  intros Hv. destruct (extractEmail_cases v) as [H|(pre & post & Hs & _)]; [exact H|].
  exfalso. apply Hv. rewrite Hs.
  rewrite elem_of_app, elem_of_cons, elem_of_app, elem_of_cons. auto 6.
Qed.

Lemma extractEmail_first (pre t post : jsstring) :
  c_lt ∉ pre -> t ≠ [] -> c_gt ∉ t ->
  Brevo.extractEmail (pre ++ c_lt :: t ++ c_gt :: post) = t.
Proof.
  intros Hpre Ht Hgt. unfold Brevo.extractEmail, exec.
  rewrite search_bracket_skip by assumption.
  cbn [search]. rewrite match_bracket_at by assumption.
  apply nonEmpty_true in Ht. now rewrite Ht.
Qed.

(** X5. [extractEmail] takes the text between the first [<] and the [>]
    that follows it: whatever comes after, and whether or not the text
    holds further [<], provided nothing before holds a [<] and the text is
    not empty. *)
Theorem extractEmail_takes_first_bracket (pre t post : jsstring) :
  c_lt ∉ pre -> t ≠ [] -> c_gt ∉ t ->
  Brevo.extractEmail (pre ++ c_lt :: t ++ c_gt :: post) = t.
Proof. apply extractEmail_first. Qed.

Lemma extractEmail_takes_first_bracket_witness :
  Brevo.extractEmail (lit "a <b@c.de> and <f@g.hi>") = lit "b@c.de".
Proof.
  apply (extractEmail_takes_first_bracket (lit "a ") (lit "b@c.de") (lit " and <f@g.hi>")).
  - apply (bool_decide_unpack _). vm_compute. exact I.
  - discriminate.
  - apply (bool_decide_unpack _). vm_compute. exact I.
Defined.

(** X6. What [extractEmail] returns is either its argument, untouched, or
    a non-empty piece of it that stood between a [<] and a [>] and holds no
    [>].  So it returns the empty string for the empty string only, and
    leaves alone every string without [>]. *)
Theorem extractEmail_returns_bracketed_piece (v : jsstring) :
  (Brevo.extractEmail v = v \/
   exists pre post,
     v = pre ++ c_lt :: Brevo.extractEmail v ++ c_gt :: post /\
     Brevo.extractEmail v ≠ [] /\ (c_gt ∉ Brevo.extractEmail v)) /\
  (Brevo.extractEmail v = [] <-> v = []) /\
  ((c_gt ∉ v) -> Brevo.extractEmail v = v).
Proof.
  split; [apply extractEmail_cases|]. split; [|apply extractEmail_no_gt].
  split.
  - intros H. destruct (extractEmail_cases v) as [Hv|(_ & _ & _ & Hne & _)]; congruence.
  - intros ->. reflexivity.
Qed.

Lemma extractEmail_returns_bracketed_piece_witness :
  (c_gt ∉ lit "cmwingo@email.sc.edu") /\
  Brevo.extractEmail (lit "cmwingo@email.sc.edu") = lit "cmwingo@email.sc.edu".
Proof.
  assert (H : c_gt ∉ lit "cmwingo@email.sc.edu")
    by (apply (bool_decide_unpack _); vm_compute; exact I).
  split; [exact H|].
  apply (extractEmail_returns_bracketed_piece (lit "cmwingo@email.sc.edu")). exact H.
Defined.

(** X7. [extractEmail] is idempotent: the address it hands over is not
    changed by a second pass. *)
Theorem extractEmail_idempotent (v : jsstring) :
  Brevo.extractEmail (Brevo.extractEmail v) = Brevo.extractEmail v.
Proof.
  destruct (extractEmail_cases v) as [H|(_ & _ & _ & _ & Hgt)].
  - now rewrite !H.
  - now apply extractEmail_no_gt.
Qed.

(** ** The reply-to handed to the API *)

(** X8. In API mode, for a submission that passes the checks, the reply-to
    of the request is [extractEmail] of the field "name <email>", that is:
    wherever this field reads [pre ++ "<" ++ t ++ ">" ++ post] with [pre]
    free of [<] and [t] non-empty and free of [>], the reply-to is [t].
    Hence it is the submitted e-mail when the name holds no [<] and the
    e-mail no [>].  When the name holds no [<] and the e-mail reads
    [e1 ++ ">" ++ e2] with [e1] non-empty and free of [>], it is [e1].  When
    the name reads [pre ++ "<" ++ rest] with [pre] free of [<], it is: [t],
    if [rest] reads [t ++ ">" ++ post] with [t] non-empty and free of [>];
    and [rest ++ " <" ++ email], which is not the submitted e-mail, if
    neither [rest] nor the e-mail holds a [>]. *)
Theorem api_reply_to_follows_first_bracket
    (env : gmap string jsstring) (a : Brevo.app) (b : option (gmap string value))
    (w : world) :
  Brevo.startup env = Listening a ->
  truthy (Brevo.BREVO_API_KEY a) = true ->
  let s := read Brevo.sanitize b in
  sub_honeypot s = [] -> (forall r, rule_fails s r = false) ->
  exists init,
    fst (Brevo.contact a b w) = [EvFetch Brevo.brevo_url init] /\
    bb_replyTo (fi_body init)
    = Some (Brevo.extractEmail (display_form (sub_name s) (sub_email s))) /\
    (forall pre t post,
       display_form (sub_name s) (sub_email s) = pre ++ c_lt :: t ++ c_gt :: post ->
       (c_lt ∉ pre) -> t ≠ [] -> (c_gt ∉ t) ->
       bb_replyTo (fi_body init) = Some t) /\
    ((c_lt ∉ sub_name s) -> (c_gt ∉ sub_email s) ->
     bb_replyTo (fi_body init) = Some (sub_email s)) /\
    (forall e1 e2,
       (c_lt ∉ sub_name s) -> sub_email s = e1 ++ c_gt :: e2 ->
       e1 ≠ [] -> (c_gt ∉ e1) ->
       bb_replyTo (fi_body init) = Some e1) /\
    (forall pre t post,
       sub_name s = pre ++ c_lt :: t ++ c_gt :: post ->
       (c_lt ∉ pre) -> t ≠ [] -> (c_gt ∉ t) ->
       bb_replyTo (fi_body init) = Some t) /\
    (forall pre rest,
       sub_name s = pre ++ c_lt :: rest ->
       (c_lt ∉ pre) -> (c_gt ∉ rest) -> (c_gt ∉ sub_email s) ->
       bb_replyTo (fi_body init) = Some (rest ++ lit " <" ++ sub_email s) /\
       rest ++ lit " <" ++ sub_email s ≠ sub_email s).
Proof.
  intros Hstart Hkey s Hh Hv.
  rewrite (brevo_contact_valid env) by assumption. fold s.
  unfold BrevoContract.dispatch. rewrite Hkey. eexists. split; [reflexivity|].
  cbn [Brevo.brevo_request fi_body bb_replyTo outgoing msg_replyTo].
  assert (Hemail : sub_email s ≠ []).
  { pose proof (Hv REmail) as He. cbn [rule_fails] in He.
    intros Heq. rewrite Heq in He. vm_compute in He. discriminate He. }
  assert (Hne : nonEmpty (sub_name s ++ lit " <" ++ sub_email s ++ lit ">") = true).
  { apply (display_form_nonEmpty (sub_name s) (sub_email s)). }
  rewrite Hne.
  change (sub_name s ++ lit " <" ++ sub_email s ++ lit ">")
    with (display_form (sub_name s) (sub_email s)).
  split; [reflexivity|].
  assert (Hfirst : forall pre t post,
             display_form (sub_name s) (sub_email s) = pre ++ c_lt :: t ++ c_gt :: post ->
             (c_lt ∉ pre) -> t ≠ [] -> (c_gt ∉ t) ->
             Some (Brevo.extractEmail (display_form (sub_name s) (sub_email s))) = Some t).
  { intros pre t post Hform Hpre Ht Hgt. rewrite Hform. f_equal.
    now apply extractEmail_first. }
  assert (Hsp : c_lt ∉ lit " ")
    by (apply (bool_decide_unpack _); vm_compute; exact I).
  split; [exact Hfirst|]. split; [|split; [|split]].
  - intros Hn He. f_equal.
    apply (extractEmail_display (sub_name s) (sub_email s)); assumption.
  - intros e1 e2 Hn Hmail He1 Hgt.
    apply (Hfirst (sub_name s ++ lit " ") e1 (e2 ++ lit ">")); [|  |exact He1|exact Hgt].
    + unfold display_form. rewrite Hmail.
      change (lit " <") with (lit " " ++ [c_lt]).
      rewrite <- !app_assoc. reflexivity.
    + rewrite elem_of_app. intros [Hin|Hin]; contradiction.
  - intros pre t post Hname Hpre Ht Hgt.
    apply (Hfirst pre t (post ++ lit " <" ++ sub_email s ++ lit ">")); try assumption.
    unfold display_form. rewrite Hname.
    rewrite <- ?app_assoc. cbn [app]. rewrite <- ?app_assoc. reflexivity.
  - intros pre rest Hname Hpre Hrest He. split.
    + apply (Hfirst pre (rest ++ lit " <" ++ sub_email s) []); [|exact Hpre| |].
      * unfold display_form. rewrite Hname.
        rewrite <- ?app_assoc. cbn [app]. rewrite <- ?app_assoc. reflexivity.
      * intros Heq. apply app_eq_nil in Heq as [_ Heq].
        apply app_eq_nil in Heq as [Heq _]. discriminate Heq.
      * intros Hin. rewrite !elem_of_app in Hin.
        assert (Hno : c_gt ∉ lit " <")
          by (apply (bool_decide_unpack _); vm_compute; exact I).
        destruct Hin as [Hin|[Hin|Hin]]; contradiction.
    + intros Heq. apply (f_equal length) in Heq.
      rewrite !length_app in Heq. cbn [length lit] in Heq. simpl in Heq. lia.
Qed.

Lemma api_reply_to_follows_first_bracket_witness :
  Brevo.startup env_brevo = Listening brevo_app /\
  exists init,
    fst (Brevo.contact brevo_app (Some body_heart) world_up)
    = [EvFetch Brevo.brevo_url init] /\
    bb_replyTo (fi_body init) = Some (lit "3 cats <jane@example.com").
Proof.
  assert (Hstart : Brevo.startup env_brevo = Listening brevo_app)
    by (vm_compute; reflexivity).
  split; [exact Hstart|].
  assert (Hread : read Brevo.sanitize (Some body_heart)
                  = {| sub_name := lit "I <3 cats"; sub_email := lit "jane@example.com";
                       sub_subject := lit "Hello";
                       sub_message := lit "This is a test message.";
                       sub_source := []; sub_honeypot := [] |})
    by (vm_compute; reflexivity).
  destruct (api_reply_to_follows_first_bracket env_brevo brevo_app (Some body_heart)
              world_up Hstart eq_refl) as (init & Hev & _ & _ & _ & _ & _ & Hbr).
  - rewrite Hread. reflexivity.
  - rewrite Hread. intros []; vm_compute; reflexivity.
  - exists init. split; [exact Hev|].
    rewrite Hread in Hbr. cbn [sub_name sub_email] in Hbr.
    apply (Hbr (lit "I ") (lit "3 cats") eq_refl);
      apply (bool_decide_unpack _); vm_compute; exact I.
Defined.

(** ** The handlers on every input *)

Lemma early_contact_cases (a : Early.app) (b : option (gmap string value)) (w : world) :
  let s := read Early.sanitize b in
  Early.contact a b w =
    if nonEmpty (sub_honeypot s) then ([], Resolved skipped)
    else match first_failure s with
         | Some r => ([], Resolved (validation_error (long_message r)))
         | None =>
             let m := outgoing_untrimmed (Early.FROM_EMAIL a) (Early.TO_EMAIL a) s in
             ([EvSendMail m],
              Resolved match smtp w m with
                       | Resolved _ => sent
                       | Rejected _ =>
                           json 500 [("error", VStr (lit "Failed to send email. Please try again later."))]
                       end)
         end.
Proof.
  intros s. subst s. unfold Early.contact, try_catch.
  handler_cases; try reflexivity.
  unfold bind, sendMail, ret, outgoing_untrimmed; cbn [sub_name sub_email sub_subject
    sub_message sub_source sub_honeypot].
  destruct (smtp w _); reflexivity.
Qed.

(** The API-capable handler whatever the application record holds, also
    one that start-up cannot produce. *)
Lemma brevo_contact_any (a : Brevo.app) (b : option (gmap string value)) (w : world) :
  let s := read Brevo.sanitize b in
  (Brevo.contact a b w =
     if nonEmpty (sub_honeypot s) then ([], Resolved skipped)
     else match first_failure s with
          | Some r => ([], Resolved (validation_error (short_message r)))
          | None => Brevo.contact a b w
          end) /\
  (nonEmpty (sub_honeypot s) = false -> first_failure s = None ->
   exists t resp,
     Brevo.contact a b w = (t, Resolved resp) /\ (length t <= 1)%nat /\
     (status resp = 200 \/ status resp = 500)).
Proof.
  intros s. subst s. split.
  - destruct (brevo_contact_early a b w) as [H1 H2].
    destruct (nonEmpty _) eqn:Hh; [now apply H1|].
    destruct (first_failure _) eqn:Hf; [now apply H2 | reflexivity].
  - intros Hh Hf. unfold Brevo.contact, try_catch.
    cbn [read sub_honeypot] in Hh. rewrite Hh.
    unfold first_failure, rules, find, rule_fails in Hf.
    cbn [read sub_name sub_email sub_subject sub_message] in Hf.
    rewrite ?required_min.
    destruct (length (Brevo.sanitize (field b "name")) <? 2)%nat; [discriminate|].
    destruct (isEmail (VStr (Brevo.sanitize (field b "email")))); [|discriminate].
    destruct (length (Brevo.sanitize (field b "subject")) <? 2)%nat; [discriminate|].
    destruct (length (Brevo.sanitize (field b "message")) <? 10)%nat; [discriminate|].
    cbn [negb]. unfold bind at 1.
    destruct (truthy (Brevo.BREVO_API_KEY a)).
    + unfold Brevo.sendViaBrevoAPI, bind, fetch, throw, await, ret.
      destruct (http w _ _) as [resp|e]; [|eexists; eexists; split; [reflexivity|]; simpl; auto].
      destruct (resp_ok resp); cbn [negb];
        [|eexists; eexists; split; [reflexivity|]; simpl; auto].
      destruct (resp_json resp) as [[]|e];
        eexists; eexists; (split; [reflexivity|]); simpl; auto.
    + destruct (Brevo.transporter a).
      * unfold sendMail, ret. destruct (smtp w _) as [[]|e];
          eexists; eexists; (split; [reflexivity|]); simpl; auto.
      * unfold throw, ret. eexists; eexists; (split; [reflexivity|]); simpl; auto.
Qed.

Ltac quiet_run :=
  let Hne := fresh "Hne" in
  split; [simpl; auto | split; [simpl; lia | intros Hne; now destruct Hne]].

Lemma server_always_answers (a : Server.app) :
  always_answers Server.sanitize (Server.contact a).
Proof.
  intros b w. rewrite server_contact_cases. cbn [read sub_honeypot].
  destruct (nonEmpty (Server.sanitize (field b "website"))) eqn:Hh;
    [quiet_run|].
  destruct (first_failure _) eqn:Hf;
    [quiet_run|].
  cbv zeta. unfold final_status. cbn [fst snd length].
  split; [destruct (smtp w _); simpl; auto|]. split; [lia|].
  intros _. split; [now apply nonEmpty_nil | now apply first_failure_None].
Qed.

Lemma early_always_answers (a : Early.app) :
  always_answers Early.sanitize (Early.contact a).
Proof.
  intros b w. rewrite early_contact_cases. cbn [read sub_honeypot].
  destruct (nonEmpty (Early.sanitize (field b "website"))) eqn:Hh;
    [quiet_run|].
  destruct (first_failure _) eqn:Hf;
    [quiet_run|].
  cbv zeta. unfold final_status. cbn [fst snd length].
  split; [destruct (smtp w _); simpl; auto|]. split; [lia|].
  intros _. split; [now apply nonEmpty_nil | now apply first_failure_None].
Qed.

Lemma brevo_always_answers (a : Brevo.app) :
  always_answers Brevo.sanitize (Brevo.contact a).
Proof.
  intros b w. destruct (brevo_contact_any a b w) as [Hc Hsend].
  cbn [read sub_honeypot] in Hc, Hsend.
  destruct (nonEmpty (Brevo.sanitize (field b "website"))) eqn:Hh;
    [rewrite Hc; quiet_run|].
  destruct (first_failure _) eqn:Hf;
    [rewrite Hc; quiet_run|].
  destruct (Hsend eq_refl eq_refl) as (t & resp & -> & Hlen & Hst).
  unfold final_status. cbn [fst snd].
  split; [destruct Hst as [-> | ->]; auto|]. split; [exact Hlen|].
  intros _. split; [now apply nonEmpty_nil | now apply first_failure_None].
Qed.

(** X9. Each of the three handlers answers every body in every world: the
    run never throws past its [catch], the status is 200, 400 or 500, and
    at most one outside call is made, which happens only for a submission
    that is past the honeypot and fails no rule.  For the API-capable
    variant this holds for any application record, also one with neither
    key nor transport. *)
Theorem contact_always_answers :
  (forall a : Server.app, always_answers Server.sanitize (Server.contact a)) /\
  (forall a : Brevo.app, always_answers Brevo.sanitize (Brevo.contact a)) /\
  (forall a : Early.app, always_answers Early.sanitize (Early.contact a)).
Proof.
  split; [exact server_always_answers|].
  split; [exact brevo_always_answers | exact early_always_answers].
Qed.

Lemma contact_always_answers_witness :
  fst (Server.contact server_app (Some body_jane) world_down) ≠ [] /\
  forall r, rule_fails (read Server.sanitize (Some body_jane)) r = false.
Proof.
  assert (H : fst (Server.contact server_app (Some body_jane) world_down) ≠ [])
    by (vm_compute; discriminate).
  split; [exact H|].
  destruct contact_always_answers as (HS & _).
  destruct (HS server_app (Some body_jane) world_down) as (_ & _ & Hcall).
  apply (Hcall H).
Defined.

Lemma early_contact_valid (a : Early.app) (b : option (gmap string value)) (w : world) :
  let s := read Early.sanitize b in
  let m := outgoing_untrimmed (Early.FROM_EMAIL a) (Early.TO_EMAIL a) s in
  sub_honeypot s = [] -> (forall r, rule_fails s r = false) ->
  Early.contact a b w =
    ([EvSendMail m],
     Resolved match smtp w m with
              | Resolved _ => sent
              | Rejected _ =>
                  json 500 [("error", VStr (lit "Failed to send email. Please try again later."))]
              end).
Proof.
  intros s m Hh Hv. rewrite early_contact_cases. fold s. rewrite Hh.
  cbn [nonEmpty truthy length Nat.eqb negb].
  now rewrite (proj2 (first_failure_None s) Hv).
Qed.

(** X10. What a caller learns of a failed delivery: [server.js] puts the
    message of the SMTP error in the body of the 500 response, or the name
    of the error when the message is empty; the earlier state and the
    API-capable variant answer with one fixed text, whatever the error. *)
Theorem failure_text_disclosed_by_server_only :
  (forall (a : Server.app) b w e,
     let s := read Server.sanitize b in
     let m := outgoing (Server.FROM_EMAIL a) (Server.TO_EMAIL a) s in
     sub_honeypot s = [] -> (forall r, rule_fails s r = false) ->
     smtp w m = Rejected e ->
     snd (Server.contact a b w)
     = Resolved (json 500 [("error", VStr (if nonEmpty (err_message e)
                                           then err_message e else err_name e))])) /\
  (forall (a : Early.app) b w e,
     let s := read Early.sanitize b in
     let m := outgoing_untrimmed (Early.FROM_EMAIL a) (Early.TO_EMAIL a) s in
     sub_honeypot s = [] -> (forall r, rule_fails s r = false) ->
     smtp w m = Rejected e ->
     snd (Early.contact a b w)
     = Resolved (json 500 [("error", VStr (lit "Failed to send email. Please try again later."))])) /\
  (forall env (a : Brevo.app) b w,
     Brevo.startup env = Listening a ->
     let s := read Brevo.sanitize b in
     let p := outgoing (Brevo.FROM_EMAIL a) (Brevo.TO_EMAIL a) s in
     sub_honeypot s = [] -> (forall r, rule_fails s r = false) ->
     BrevoContract.delivered a p w = false ->
     snd (Brevo.contact a b w)
     = Resolved (json 500 [("error", VStr (lit "Failed to send email. Please try again later."))])).
Proof.
  split; [|split].
  - intros a b w e s m Hh Hv He. rewrite server_contact_valid by assumption.
    fold s m. now rewrite He.
  - intros a b w e s m Hh Hv He. rewrite early_contact_valid by assumption.
    fold s m. now rewrite He.
  - intros env a b w Hstart s p Hh Hv Hd.
    rewrite (brevo_contact_valid env) by assumption. fold s p. now rewrite Hd.
Qed.

Lemma failure_text_disclosed_by_server_only_witness :
  snd (Server.contact server_app (Some body_jane) world_down)
  = Resolved (json 500 [("error", VStr (lit "Connection timeout"))]).
Proof.
  destruct failure_text_disclosed_by_server_only as (HS & _).
  apply (HS server_app (Some body_jane) world_down (mkError (lit "Connection timeout"))).
  - rewrite (jane_is_valid Server.sanitize server_sanitize_string eq_refl). reflexivity.
  - rewrite (jane_is_valid Server.sanitize server_sanitize_string eq_refl).
    intros []; vm_compute; reflexivity.
  - reflexivity.
Defined.

(** ** The text of the mail *)

Lemma trim_leading (c : N) (s : jsstring) :
  isWhiteSpace c = true -> trim (c :: s) = trim s.
Proof. intros Hc. unfold trim. simpl. now rewrite Hc. Qed.

Lemma mail_text_clean (s : submission) :
  sub_message s ≠ [] -> edge_clean (sub_message s) -> edge_clean (mail_text s).
Proof.
  intros Hne [_ Hl]. split.
  - intros c Hc. unfold mail_text in Hc. vm_compute in Hc. now injection Hc as <-.
  - intros c Hc. apply Hl. unfold mail_text in Hc.
    destruct (last (sub_message s)) as [d|] eqn:Hd.
    + rewrite !app_assoc in Hc. rewrite (last_suffix _ _ d Hd) in Hc. exact Hc.
    + apply last_None in Hd. contradiction.
Qed.

Lemma mail_text_trimmed (s : submission) :
  sub_message s ≠ [] -> edge_clean (sub_message s) ->
  trim (text_template (sub_name s) (sub_email s) (sub_subject s) (sub_source s)
          (sub_message s)) = mail_text s.
Proof.
  intros Hne Hc.
  change (text_template (sub_name s) (sub_email s) (sub_subject s) (sub_source s)
            (sub_message s)) with (10 :: mail_text s).
  rewrite trim_leading by reflexivity. now apply trim_clean, mail_text_clean.
Qed.

Lemma message_rule_nonempty (s : submission) :
  rule_fails s RMessage = false -> sub_message s ≠ [].
Proof. cbn [rule_fails]. intros H Heq. rewrite Heq in H. discriminate H. Qed.

(** X14. For a submission that passes the checks, trimming the text of the
    mail removes the newline that opens the template and nothing else: the
    one message [server.js] hands to [sendMail] has as text the heading,
    the four labelled lines ("Source: form" when no source is given) and
    the sanitized message, unshortened.  The API-capable variant, whose
    template ends with one more newline, dispatches the same text. *)
Theorem mail_text_is_the_template (b : option (gmap string value)) (w : world) :
  (forall a : Server.app,
     let s := read Server.sanitize b in
     sub_honeypot s = [] -> (forall r, rule_fails s r = false) ->
     exists m, fst (Server.contact a b w) = [EvSendMail m] /\
               msg_text m = mail_text s) /\
  (forall env (a : Brevo.app),
     Brevo.startup env = Listening a ->
     let s := read Brevo.sanitize b in
     sub_honeypot s = [] -> (forall r, rule_fails s r = false) ->
     exists p, fst (Brevo.contact a b w) = [BrevoContract.dispatch a p] /\
               msg_text p = mail_text s).
Proof.
  split.
  - intros a s Hh Hv. rewrite server_contact_valid by assumption. fold s.
    eexists. split; [reflexivity|]. cbn [outgoing msg_text].
    apply mail_text_trimmed; [now apply message_rule_nonempty|].
    destruct (server_sanitize_trimmed (field b "message")) as [x Hx].
    cbn [s read sub_message]. rewrite Hx. apply trim_edges.
  - intros env a Hstart s Hh Hv. rewrite (brevo_contact_valid env) by assumption.
    fold s. eexists. split; [reflexivity|]. cbn [outgoing msg_text].
    apply mail_text_trimmed; [now apply message_rule_nonempty|].
    destruct (brevo_sanitize_trimmed (field b "message")) as [x Hx].
    cbn [s read sub_message]. rewrite Hx. apply trim_edges.
Qed.

Lemma mail_text_is_the_template_witness :
  exists m,
    fst (Server.contact server_app (Some body_jane) world_up) = [EvSendMail m] /\
    msg_text m = mail_text (read Server.sanitize (Some body_jane)).
Proof.
  destruct (mail_text_is_the_template (Some body_jane) world_up) as [HS _].
  apply (HS server_app).
  - rewrite (jane_is_valid Server.sanitize server_sanitize_string eq_refl). reflexivity.
  - rewrite (jane_is_valid Server.sanitize server_sanitize_string eq_refl).
    intros []; vm_compute; reflexivity.
Defined.

(** X15. The earlier state and [server.js] treat every body alike up to
    the dispatch: same silent success, same validation errors.  For a
    submission that passes the checks both make one [sendMail] call with the
    same recipient, sender, reply-to and subject; the text of the earlier
    state is that of [server.js] with a newline in front. *)
Theorem early_state_differs_by_leading_newline
    (aE : Early.app) (aS : Server.app) (b : option (gmap string value)) (w : world) :
  Early.TO_EMAIL aE = Server.TO_EMAIL aS ->
  Early.FROM_EMAIL aE = Server.FROM_EMAIL aS ->
  let s := read Server.sanitize b in
  (fst (Server.contact aS b w) = [] -> Early.contact aE b w = Server.contact aS b w) /\
  (sub_honeypot s = [] -> (forall r, rule_fails s r = false) ->
   exists mE mS,
     fst (Early.contact aE b w) = [EvSendMail mE] /\
     fst (Server.contact aS b w) = [EvSendMail mS] /\
     msg_to mE = msg_to mS /\ msg_from mE = msg_from mS /\
     msg_replyTo mE = msg_replyTo mS /\ msg_subject mE = msg_subject mS /\
     msg_text mE = nl ++ msg_text mS).
Proof.
  intros Hto Hfrom s. split.
  - rewrite server_contact_cases, early_contact_cases.
    change (read Early.sanitize b) with s. change (read Server.sanitize b) with s.
    destruct (nonEmpty (sub_honeypot s)); [reflexivity|].
    destruct (first_failure s); [reflexivity|]. discriminate.
  - intros Hh Hv. rewrite early_contact_valid, server_contact_valid by assumption.
    change (read Early.sanitize b) with s. fold s.
    eexists. eexists. split; [reflexivity|]. split; [reflexivity|].
    cbn [outgoing outgoing_untrimmed msg_to msg_from msg_replyTo msg_subject msg_text].
    repeat (split; [first [assumption | reflexivity]|]).
    rewrite mail_text_trimmed; [reflexivity | now apply message_rule_nonempty|].
    destruct (server_sanitize_trimmed (field b "message")) as [x Hx].
    cbn [s read sub_message]. rewrite Hx. apply trim_edges.
Qed.

Lemma early_state_differs_by_leading_newline_witness :
  exists mE mS,
    fst (Early.contact early_app (Some body_jane) world_up) = [EvSendMail mE] /\
    fst (Server.contact server_app (Some body_jane) world_up) = [EvSendMail mS] /\
    msg_text mE = nl ++ msg_text mS.
Proof.
  destruct (early_state_differs_by_leading_newline early_app server_app (Some body_jane)
              world_up eq_refl eq_refl) as [_ H].
  destruct H as (mE & mS & HE & HS & _ & _ & _ & _ & Ht).
  - rewrite (jane_is_valid Server.sanitize server_sanitize_string eq_refl). reflexivity.
  - rewrite (jane_is_valid Server.sanitize server_sanitize_string eq_refl).
    intros []; vm_compute; reflexivity.
  - eauto.
Defined.

(** ** The allow-list *)

Lemma split_comma_nonempty (s : jsstring) : split_comma s ≠ [].
Proof.
  destruct s as [|c s]; simpl; [discriminate|].
  destruct (c =? 44); [discriminate|]. destruct (split_comma s); discriminate.
Qed.

Lemma join_split_comma (s : jsstring) : join_comma (split_comma s) = s.
Proof.
  induction s as [|c s IH]; [reflexivity|]. simpl.
  pose proof (split_comma_nonempty s) as Hne.
  destruct (N.eqb_spec c 44) as [->|_].
  - destruct (split_comma s) as [|h t]; [done|].
    change (join_comma ([] :: h :: t)) with (44 :: join_comma (h :: t)). now rewrite IH.
  - destruct (split_comma s) as [|h t]; [done|].
    destruct t as [|h2 t]; simpl in *; now rewrite <- IH.
Qed.

Lemma split_comma_pieces (s piece : jsstring) :
  piece ∈ split_comma s -> 44 ∉ piece.
Proof.
  revert piece. induction s as [|c s IH]; intros piece; simpl.
  - intros H. apply list_elem_of_singleton in H as ->. apply not_elem_of_nil.
  - destruct (N.eqb_spec c 44) as [->|Hc].
    + intros H. apply elem_of_cons in H as [->|H]; [apply not_elem_of_nil | now apply IH].
    + pose proof (split_comma_nonempty s) as Hne.
      destruct (split_comma s) as [|h t]; [done|].
      intros H. apply elem_of_cons in H as [->|H].
      * apply not_elem_of_cons. split; [congruence|]. apply IH. now left.
      * apply IH. now right.
Qed.

Lemma trim_keeps (s : jsstring) (c : N) : c ∈ trim s -> c ∈ s.
Proof.
  intros H. destruct (trim_split s) as (pre & post & Hs & _). rewrite Hs.
  rewrite !elem_of_app. auto.
Qed.

Lemma parse_origins_elem (s o : jsstring) :
  o ∈ parse_origins s <-> o ≠ [] /\ exists piece, piece ∈ split_comma s /\ trim piece = o.
Proof.
  unfold parse_origins. rewrite list_elem_of_filter, nonEmpty_true.
  rewrite list_elem_of_In, in_map_iff.
  split; intros [Hne (piece & H1 & H2)]; (split; [exact Hne|]); exists piece.
  - split; [now apply list_elem_of_In | exact H1].
  - split; [exact H2 | now apply list_elem_of_In].
Qed.

(** X12. Splitting the [CORS_ORIGINS] value at its commas loses nothing
    (joining the pieces with commas gives the value back), and the
    allow-list holds exactly the non-empty trimmed pieces: every entry is
    non-empty, free of commas and of whitespace at its ends. *)
Theorem allow_list_entries (s : jsstring) :
  join_comma (split_comma s) = s /\
  (forall o, o ∈ parse_origins s <->
             o ≠ [] /\ exists piece, piece ∈ split_comma s /\ trim piece = o) /\
  (forall o, o ∈ parse_origins s -> o ≠ [] /\ (44 ∉ o) /\ edge_clean o).
Proof.
  split; [apply join_split_comma|]. split; [apply parse_origins_elem|].
  intros o Ho. apply parse_origins_elem in Ho as (Hne & piece & Hp & <-).
  split; [exact Hne|]. split; [|apply trim_edges].
  intros Hin. apply trim_keeps in Hin. now apply (split_comma_pieces s piece).
Qed.

Lemma allow_list_entries_witness :
  lit "http://localhost:5173" ∈ parse_origins (lit " https://a.example , ,http://localhost:5173 ,")
  /\ (44 ∉ lit "http://localhost:5173").
Proof.
  assert (H : lit "http://localhost:5173"
              ∈ parse_origins (lit " https://a.example , ,http://localhost:5173 ,"))
    by (apply (bool_decide_unpack _); vm_compute; exact I).
  split; [exact H|].
  destruct (allow_list_entries (lit " https://a.example , ,http://localhost:5173 ,"))
    as (_ & _ & Hall).
  apply (Hall _ H).
Defined.

(** X13. A [CORS_ORIGINS] that is set to the empty string is read
    differently by the files: [server.js] and its earlier state fall back
    on their built-in list ([CORS_ORIGINS || '...']), while the API-capable
    variant, whose default is a destructuring default, gets an empty
    allow-list and turns away every request with a non-empty [Origin].  An
    unset variable gives the built-in list in all three. *)
Theorem blank_cors_origins_edge (env : gmap string jsstring) :
  (env !! "CORS_ORIGINS" = Some [] ->
   (forall a, Server.startup env = Listening a ->
              Server.origins a = parse_origins Server.default_origins) /\
   (forall a, Early.startup env = Listening a ->
              Early.origins a = parse_origins Early.default_origins) /\
   (forall a, Brevo.startup env = Listening a ->
              Brevo.allowList a = [] /\
              forall o, o ≠ [] ->
                        origin_callback (Brevo.allowList a) (Some o)
                        = Rejected (mkError (lit "Not allowed by CORS")))) /\
  (env !! "CORS_ORIGINS" = None ->
   (forall a, Server.startup env = Listening a ->
              Server.origins a = parse_origins Server.default_origins) /\
   (forall a, Early.startup env = Listening a ->
              Early.origins a = parse_origins Early.default_origins) /\
   (forall a, Brevo.startup env = Listening a ->
              Brevo.allowList a = parse_origins Brevo.default_origins)).
Proof.
  split; intros Henv.
  - split; [|split].
    + intros a. unfold Server.startup. destruct (_ || _); [discriminate|].
      intros [= <-]. cbn [Server.origins]. unfold getenv. now rewrite Henv.
    + intros a. unfold Early.startup. destruct (_ || _); [discriminate|].
      intros [= <-]. cbn [Early.origins]. unfold getenv. now rewrite Henv.
    + intros a Hstart.
      assert (Hlist : Brevo.allowList a = []).
      { revert Hstart. unfold Brevo.startup.
        destruct (negb _); [destruct (_ || _); [discriminate|]|];
          intros [= <-]; cbn [Brevo.allowList]; unfold getenv_default;
          now rewrite Henv. }
      split; [exact Hlist|]. intros o Ho. rewrite Hlist.
      unfold origin_callback, includes. cbv zeta.
      change (truthy (VStr o)) with (nonEmpty o).
      apply nonEmpty_true in Ho. rewrite Ho. cbn [negb orb].
      rewrite bool_decide_eq_false_2; [reflexivity | apply not_elem_of_nil].
  - split; [|split].
    + intros a. unfold Server.startup. destruct (_ || _); [discriminate|].
      intros [= <-]. cbn [Server.origins]. unfold getenv. now rewrite Henv.
    + intros a. unfold Early.startup. destruct (_ || _); [discriminate|].
      intros [= <-]. cbn [Early.origins]. unfold getenv. now rewrite Henv.
    + intros a. unfold Brevo.startup.
      destruct (negb _); [destruct (_ || _); [discriminate|]|];
        intros [= <-]; cbn [Brevo.allowList]; unfold getenv_default;
        now rewrite Henv.
Qed.

Lemma blank_cors_origins_edge_witness :
  env_blank_origins !! "CORS_ORIGINS" = Some [] /\
  (exists a, Brevo.startup env_blank_origins = Listening a /\ Brevo.allowList a = []) /\
  (exists a, Server.startup env_blank_origins = Listening a /\
             Server.origins a = parse_origins Server.default_origins).
Proof.
  assert (H : env_blank_origins !! "CORS_ORIGINS" = Some []) by (vm_compute; reflexivity).
  split; [exact H|].
  destruct (blank_cors_origins_edge env_blank_origins) as [Hblank _].
  destruct (Hblank H) as (HS & _ & HB).
  destruct (Brevo.startup env_blank_origins) as [|aB] eqn:HstartB;
    [vm_compute in HstartB; discriminate HstartB|].
  destruct (Server.startup env_blank_origins) as [|aS] eqn:HstartS;
    [vm_compute in HstartS; discriminate HstartS|].
  split.
  - exists aB. split; [reflexivity | apply (HB aB eq_refl)].
  - exists aS. split; [reflexivity | apply (HS aS eq_refl)].
Defined.

(** ** The diagnostic route *)

(** X11. [GET /debug/verify] of [server.js] makes one [verify] call and
    answers 200 exactly when it resolves, 500 with the text of the error
    otherwise.  In the API-capable variant a configured key makes the route
    answer 200 "brevo-api" without any outside call, whatever the state of
    the world; without a key it makes the one [verify] call and answers 200
    with the result exactly when the call resolves. *)
Theorem debug_verify_answers (w : world) :
  (fst (Server.debug_verify w) = [EvVerify] /\
   (final_status (Server.debug_verify w) = 200 <-> exists v, smtp_verify w = Resolved v) /\
   (forall e, smtp_verify w = Rejected e ->
              snd (Server.debug_verify w)
              = Resolved (json 500 [("ok", VBool false); ("error", VStr (error_text e))]))) /\
  (forall a : Brevo.app,
     truthy (Brevo.BREVO_API_KEY a) = true ->
     Brevo.debug_verify a w
     = ([], Resolved (json 200 [("ok", VBool true); ("backend", VStr (lit "brevo-api"))]))) /\
  (forall env (a : Brevo.app),
     Brevo.startup env = Listening a ->
     truthy (Brevo.BREVO_API_KEY a) = false ->
     fst (Brevo.debug_verify a w) = [EvVerify] /\
     (forall v, smtp_verify w = Resolved v ->
                snd (Brevo.debug_verify a w)
                = Resolved (json 200 [("ok", VBool true); ("backend", VStr (lit "smtp"));
                                      ("result", v)])) /\
     (forall e, smtp_verify w = Rejected e ->
                snd (Brevo.debug_verify a w)
                = Resolved (json 500 [("ok", VBool false); ("error", VStr (error_text e))]))).
Proof.
  split; [|split].
  - unfold Server.debug_verify, try_catch, bind, verify, ret, final_status.
    destruct (smtp_verify w) as [v|e]; cbn [fst snd status json app].
    + split; [reflexivity|]. split; [split; eauto|]. discriminate.
    + split; [reflexivity|]. split.
      * split; [discriminate | intros [v Hv]; discriminate Hv].
      * now intros e' [= <-].
  - intros a Hk. unfold Brevo.debug_verify, try_catch. now rewrite Hk.
  - intros env a Hstart Hk.
    destruct (brevo_startup_inv env a Hstart) as [[Hk' _] | [_ [t Ht]]]; [congruence|].
    unfold Brevo.debug_verify, try_catch, bind, verify, ret. rewrite Hk, Ht.
    destruct (smtp_verify w) as [v|e]; cbn [fst snd app].
    + split; [reflexivity|]. split; [now intros v' [= <-] | discriminate].
    + split; [reflexivity|]. split; [discriminate | now intros e' [= <-]].
Qed.

Lemma debug_verify_answers_witness :
  Brevo.startup env_smtp = Listening brevo_smtp_app /\
  fst (Brevo.debug_verify brevo_smtp_app world_down) = [EvVerify] /\
  Brevo.debug_verify brevo_app world_down
  = ([], Resolved (json 200 [("ok", VBool true); ("backend", VStr (lit "brevo-api"))])).
Proof.
  assert (Hstart : Brevo.startup env_smtp = Listening brevo_smtp_app)
    by (vm_compute; reflexivity).
  destruct (debug_verify_answers world_down) as (_ & Hapi & Hsmtp).
  split; [exact Hstart|]. split.
  - apply (Hsmtp env_smtp brevo_smtp_app Hstart eq_refl).
  - apply (Hapi brevo_app eq_refl).
Defined.

(** ** Bodies without a name *)

Lemma sanitize_missing (v : value) :
  v = VUndefined \/ v = VNull ->
  Server.sanitize v = [] /\ Brevo.sanitize v = [] /\ Early.sanitize v = [].
Proof. intros [-> | ->]; repeat split. Qed.

(** X16. A request without a body, with an empty object, or with a body in
    which [name] and [website] are absent or [null] does not make any of
    the handlers throw: each answers 400 with its name message and makes no
    outside call. *)
Theorem missing_name_is_answered (b : option (gmap string value)) (w : world) :
  (forall k, field None k = VUndefined /\ field (Some ∅) k = VUndefined) /\
  (field b "name" = VUndefined \/ field b "name" = VNull ->
   field b "website" = VUndefined \/ field b "website" = VNull ->
   (forall a, Server.contact a b w
              = ([], Resolved (validation_error
                                 (lit "Name is required and must be at least 2 characters.")))) /\
   (forall a, Early.contact a b w
              = ([], Resolved (validation_error
                                 (lit "Name is required and must be at least 2 characters.")))) /\
   (forall a, Brevo.contact a b w
              = ([], Resolved (validation_error (lit "Name is required (min 2 chars)."))))).
Proof.
  split; [intros k; split; [reflexivity | unfold field; now rewrite lookup_empty]|].
  intros Hn Hw.
  destruct (sanitize_missing _ Hn) as (HnS & HnB & HnE).
  destruct (sanitize_missing _ Hw) as (HwS & HwB & HwE).
  split; [|split]; intros a.
  - rewrite server_contact_cases. cbn [read sub_honeypot]. rewrite HwS.
    cbn [nonEmpty truthy length Nat.eqb negb].
    rewrite (first_failure_name (read Server.sanitize b)); [reflexivity|].
    cbn [read sub_name]. rewrite HnS. simpl. lia.
  - rewrite early_contact_cases. cbn [read sub_honeypot]. rewrite HwE.
    cbn [nonEmpty truthy length Nat.eqb negb].
    rewrite (first_failure_name (read Early.sanitize b)); [reflexivity|].
    cbn [read sub_name]. rewrite HnE. simpl. lia.
  - apply (proj2 (brevo_contact_early a b w) RName).
    + cbn [read sub_honeypot]. now rewrite HwB.
    + apply first_failure_name. cbn [read sub_name]. rewrite HnB. simpl. lia.
Qed.

Lemma missing_name_is_answered_witness :
  Brevo.contact brevo_app None world_up
  = ([], Resolved (validation_error (lit "Name is required (min 2 chars)."))).
Proof.
  destruct (missing_name_is_answered None world_up) as [_ H].
  destruct (H (or_introl eq_refl) (or_introl eq_refl)) as (_ & _ & HB).
  apply HB.
Defined.

(** ** [sendViaBrevoAPI] *)

(** X17. [sendViaBrevoAPI] makes one POST request to the Brevo endpoint,
    with the key in its [api-key] header, and nothing else.  It resolves
    exactly when the request resolves with a status from 200 to 299 and the
    body parses as JSON; a rejected request is passed on as it is; any
    other status throws [Error("Brevo API <status>: <body>")], the body
    being empty when it cannot be read. *)
Theorem sendViaBrevoAPI_outcome (key : value) (p : message) (w : world) :
  let init := Brevo.brevo_request key p in
  fst (Brevo.sendViaBrevoAPI key p w) = [EvFetch Brevo.brevo_url init] /\
  fi_method init = lit "POST" /\
  (lit "api-key", ToString key) ∈ fi_headers init /\
  (snd (Brevo.sendViaBrevoAPI key p w) = Resolved tt <->
   exists resp, http w Brevo.brevo_url init = Resolved resp /\
                200 <= resp_status resp <= 299 /\ resp_json resp = Resolved tt) /\
  (forall e, http w Brevo.brevo_url init = Rejected e ->
             snd (Brevo.sendViaBrevoAPI key p w) = Rejected e) /\
  (forall resp,
     http w Brevo.brevo_url init = Resolved resp ->
     resp_status resp < 200 \/ 299 < resp_status resp ->
     snd (Brevo.sendViaBrevoAPI key p w)
     = Rejected (mkError (lit "Brevo API " ++ lit (pretty (resp_status resp)) ++ lit ": "
                          ++ match resp_text resp with
                             | Resolved t => t
                             | Rejected _ => []
                             end))).
Proof.
  intros init. split; [apply sendViaBrevoAPI_calls|]. split; [reflexivity|].
  split; [apply elem_of_cons; now left|].
  unfold Brevo.sendViaBrevoAPI, bind, fetch, throw, await. fold init.
  assert (Hok : forall resp, resp_ok resp = true <-> 200 <= resp_status resp <= 299).
  { intros resp. unfold resp_ok. rewrite andb_true_iff, !N.leb_le. reflexivity. }
  destruct (http w Brevo.brevo_url init) as [resp|e] eqn:Hhttp.
  - destruct (resp_ok resp) eqn:Hresp; cbn [negb fst snd app].
    + apply Hok in Hresp. split; [|split].
      * split.
        -- intros Hj. exists resp. auto.
        -- intros (resp' & [= <-] & _ & Hj). exact Hj.
      * discriminate.
      * intros resp' [= <-] Hout. lia.
    + assert (Hno : ~ 200 <= resp_status resp <= 299)
        by (intros H; apply Hok in H; congruence).
      split; [|split].
      * split; [discriminate|]. intros (resp' & [= <-] & Hin & _). contradiction.
      * discriminate.
      * now intros resp' [= <-] _.
  - cbn [fst snd]. split; [|split].
    + split; [discriminate | intros (resp & Hr & _); discriminate Hr].
    + now intros e' [= <-].
    + discriminate.
Qed.

Lemma sendViaBrevoAPI_outcome_witness :
  snd (Brevo.sendViaBrevoAPI (VStr (lit "xkeysib-1"))
         (outgoing (lit "a@b.cd") (lit "e@f.gh") (read Brevo.sanitize (Some body_jane)))
         world_down)
  = Rejected (mkError (lit "Brevo API 401: unauthorized")).
Proof.
  destruct (sendViaBrevoAPI_outcome (VStr (lit "xkeysib-1"))
              (outgoing (lit "a@b.cd") (lit "e@f.gh") (read Brevo.sanitize (Some body_jane)))
              world_down) as (_ & _ & _ & _ & _ & Hbad).
  apply (Hbad {| resp_status := 401; resp_text := Resolved (lit "unauthorized");
                 resp_json := Rejected (mkError (lit "bad json")) |} eq_refl).
  right. vm_compute. reflexivity.
Defined.
